(* ===================================================================== *)
(* Webview compiler and panel lifecycle of src/webviews/main.ts           *)
(*                                                                       *)
(* A shallow embedding of compileVueWebview (the anonymous class, its    *)
(* constructor, its protocol field and show), of createVueWebview and    *)
(* of resolveWebviewHtml.  JavaScript objects used as maps are gmaps     *)
(* keyed by property name, object spread is a right-biased merge, the    *)
(* promise returned by show is an explicit settle-once cell, and the     *)
(* event loop is a step function over the events the host can deliver.   *)
(* ===================================================================== *)

From Stdlib Require Import ZArith Ascii String.
From stdpp Require Import gmap strings list fin_maps.

Local Open Scope string_scope.
Local Set Warnings "-register-all,-clear-no-such-hyp".

(* --------------------------------------------------------------------- *)
(* JavaScript values                                                     *)
(* --------------------------------------------------------------------- *)

Module Js.

(** The values that cross the webview boundary: initial data [D],
    submitted results [S], what hooks return.  An object is the list
    of its own properties. *)
Inductive value : Type :=
| VUndefined
| VNull
| VBool (b : bool)
| VNum (n : Z)
| VStr (s : string)
| VObject (props : list (string * value)).

(** ToBoolean: what [if (v)] and [a && b] test. *)
Definition truthy (v : value) : bool :=
  match v with
  | VUndefined | VNull => false
  | VBool b => b
  | VNum n => negb (n =? 0)%Z
  | VStr s => negb (String.eqb s EmptyString)
  | VObject _ => true
  end.

(** How a promise that a hook handed back ends. *)
Inductive settle : Type :=
| Fulfilled (v : value)
| Rejected (e : value)
| Forever.

(** What calling a hook does: return a plain value, return a promise,
    or throw.  A promise object is itself truthy. *)
Inductive hook_result : Type :=
| Returns (v : value)
| ReturnsPromise (p : settle)
| Throws (e : value).

(** The property [o.k] of an optional object, [undefined] spread as
    nothing: [...o] with [o] undefined contributes no key. *)
Definition spread {A} (o : option (gmap string A)) : gmap string A :=
  default ∅ o.

(** [{ ...a, ...b }]: keys of [b] win.  stdpp's union keeps the left
    operand on a clash, hence the swap. *)
Definition merge_over {A} (a b : gmap string A) : gmap string A := b ∪ a.

(** [arguments[0]] of a remote call. *)
Definition arg0 (args : list value) : value := default VUndefined (args !! 0%nat).

(** An object as far as freezing goes: its own enumerable properties
    and whether [Object.freeze] has been applied to it. *)
Record object (A : Type) := Object { props : gmap string A; frozen : bool }.
Arguments Object {A} _ _.
Arguments props {A} _.
Arguments frozen {A} _.

(** An object initialiser [{ ... }]: extensible, its properties
    writable and configurable. *)
Definition literal {A} (m : gmap string A) : object A := Object m false.

(** [Object.freeze(o)] and [Object.isFrozen(o)]. *)
Definition Object_freeze {A} (o : object A) : object A := Object (props o) true.
Definition Object_isFrozen {A} (o : object A) : bool := frozen o.

(** [o[k] = v] as seen on the own properties.  Nothing changes on a
    frozen object.  An own property is updated.  A new key becomes an
    own property, except [__proto__], whose write goes to the setter
    inherited from Object.prototype and leaves the own properties as
    they are. *)
Definition set_property {A} (k : string) (v : A) (o : object A) : object A :=
  if frozen o then o
  else
    match props o !! k with
    | Some _ => Object (<[k := v]> (props o)) false
    | None =>
        if String.eqb k "__proto__" then o
        else Object (<[k := v]> (props o)) false
    end.

End Js.
Import Js.

(* --------------------------------------------------------------------- *)
(* Descriptor: WebviewParams & WebviewCompileOptions                     *)
(* --------------------------------------------------------------------- *)

(** A vscode.EventEmitter object, identified by its allocation. *)
Definition emitter := nat.

(** What a descriptor command does when the messaging layer calls it:
    the value it returns and whether it closed the panel through the
    [dispose] the server object carries ([this.dispose()]). *)
Record cmd_result := CmdResult { cmd_ret : value; cmd_disposes : bool }.
Definition command := list value → cmd_result.

Definition hook := value → hook_result.

(** [params]: the required fields of WebviewParams and the optional
    fields of WebviewCompileOptions; [None] is an absent property. *)
Record WebviewParams := {
  id : string;
  name : string;
  webviewJs : string;
  persistWithoutFocus : option bool;
  cssFiles : option (list string);
  libFiles : option (list string);
  commands : option (gmap string command);
  events : option (gmap string emitter);
  validateData : option hook;
  validateSubmit : option hook;
}.

(* --------------------------------------------------------------------- *)
(* The host: vscode, node and the extension utilities                    *)
(* --------------------------------------------------------------------- *)

(** vscode.Uri as its five components; [with] replaces components. *)
Record Uri := {
  scheme : string; authority : string; path : string;
  query : string; fragment : string;
}.

Definition Uri_with_path (u : Uri) (p : string) : Uri :=
  {| scheme := scheme u; authority := authority u; path := p;
     query := query u; fragment := fragment u |}.

Inductive ViewColumn := ViewColumnTwo | ViewColumnBeside.

(** Everything main.ts takes from outside, as parameters: node's
    [path.join], the vscode Uri functions and the panel's [cspSource],
    [isCloud9] and [getFilesAsVsCodeResources] of
    ../shared/extensionUtilities (not among the sources), and the
    environment variable read by [resolveWebviewHtml]. *)
Record Host := {
  isCloud9 : bool;
  extensionPath : string;
  path_join : list string → string;
  Uri_file : string → Uri;
  Uri_parse : string → Uri;
  Uri_toString : Uri → string;
  asWebviewUri : Uri → Uri;
  panel_cspSource : string;
  getFilesAsVsCodeResources : string → list string → list string;
  WEBPACK_DEVELOPER_SERVER : option string;
}.

(** What [vscode.window.createWebviewPanel] was asked for, with the
    title and the document set on the panel afterwards. *)
Record Panel := {
  viewType : string;
  title : string;
  column : ViewColumn;
  enableScripts : bool;
  enableCommandUris : bool;
  localResourceRoots : list Uri;
  retainContextWhenHidden : option bool;
  html : string;
}.

(** The world the class lives in: emitters allocated so far and the
    panels the window has been asked to create. *)
Record World := {
  next_emitter : nat;
  panels : list Panel;
}.

(* --------------------------------------------------------------------- *)
(* The compiled class: protocol field and constructor                    *)
(* --------------------------------------------------------------------- *)

(** An entry of the [protocol] field. *)
Inductive proto_entry : Type :=
| PCommand (c : command)
| PEvent (e : emitter).

(** [submit: () => {}] *)
Definition placeholder_submit : command :=
  fun _ => CmdResult VUndefined false.

(** [init: () => ({} as D)] *)
Definition placeholder_init : command :=
  fun _ => CmdResult (VObject []) false.

Definition builtin_placeholders : gmap string proto_entry :=
  <["init" := PCommand placeholder_init]>
    (<["submit" := PCommand placeholder_submit]> ∅).

(** The field initialiser
    [{ submit: () => {}, init: () => ({} as D), ...params.commands, ...params.events }]. *)
Definition protocol_of (params : WebviewParams) : gmap string proto_entry :=
  merge_over
    (merge_over builtin_placeholders (PCommand <$> spread (commands params)))
    (PEvent <$> spread (events params)).

(** [Object.keys(params.events ?? {})]: the own enumerable keys.  A
    gmap lists its keys in its own order rather than in insertion
    order; the order decides which of the new emitters goes to which
    key. *)
Definition event_keys (params : WebviewParams) : list string :=
  (map_to_list (spread (events params))).*1.

(** The [forEach] of the constructor.  Each key gets a [new
    vscode.EventEmitter()], and
    [Object.assign(copyEmitters, { [k]: emitter })] writes it with an
    ordinary property write.  For the key [__proto__] that write runs
    the setter inherited from Object.prototype: the emitter becomes the
    prototype of [copyEmitters] ([proto]) and no own property is made.
    Every other key becomes an own property of [copyEmitters] ([acc]);
    once the prototype is an emitter this holds as long as the
    EventEmitter class of vscode does not itself define that name with
    a setter or read-only. *)
Fixpoint copy_emitters (keys : list string) (acc : gmap string emitter)
    (proto : option emitter) (n : nat)
  : gmap string emitter * option emitter * nat :=
  match keys with
  | [] => (acc, proto, n)
  | k :: ks =>
      if String.eqb k "__proto__"
      then copy_emitters ks acc (Some n) (S n)
      else copy_emitters ks (<[k := n]> acc) proto (S n)
  end.

(** An instance: [emitters] holds the own properties of the emitters
    object, which is what [Object.keys] and a spread see of it, and
    [emitters_proto] its prototype when that is no longer
    Object.prototype. *)
Record Instance := {
  context : Host;
  emitters : gmap string emitter;
  emitters_proto : option emitter;
  protocol : object proto_entry;
}.

(** [new (compileVueWebview(params))(context)]. *)
Definition construct (params : WebviewParams) (ctx : Host) (w : World)
  : Instance * World :=
  let '(copyEmitters, proto, n) :=
    copy_emitters (event_keys params) ∅ None (next_emitter w) in
  ({| context := ctx; emitters := copyEmitters; emitters_proto := proto;
      protocol := literal (protocol_of params) |},
   {| next_emitter := n; panels := panels w |}).

(* --------------------------------------------------------------------- *)
(* resolveWebviewHtml and createVueWebview                               *)
(* --------------------------------------------------------------------- *)

Module Html.

Definition dq : string := String (ascii_of_nat 34) EmptyString.
Definition nl : string := String (ascii_of_nat 10) EmptyString.

(** The argument of [resolveWebviewHtml]. *)
Record HtmlParams := {
  scripts : string;
  stylesheets : string;
  cspSource : string;
  html_webviewJs : string;
  main : Uri;
}.

(** [resolvedParams]: the argument plus [connectSource]. *)
Record Resolved := {
  r_scripts : string;
  r_stylesheets : string;
  r_cspSource : string;
  r_webviewJs : string;
  r_main : Uri;
  r_connectSource : string;
}.

(** [if (LOCAL_SERVER)] on [string | undefined]: the empty string is
    falsy like [undefined]. *)
Definition local_server (h : Host) : option string :=
  match WEBPACK_DEVELOPER_SERVER h with
  | Some s => if truthy (VStr s) then Some s else None
  | None => None
  end.

Definition resolve_params (h : Host) (params : HtmlParams) : Resolved :=
  let resolvedParams :=
    {| r_scripts := scripts params; r_stylesheets := stylesheets params;
       r_cspSource := cspSource params; r_webviewJs := html_webviewJs params;
       r_main := main params; r_connectSource := "none" |} in
  match local_server h with
  | Some LOCAL_SERVER =>
      let local := Uri_parse h LOCAL_SERVER in
      {| r_scripts := r_scripts resolvedParams;
         r_stylesheets := r_stylesheets resolvedParams;
         r_cspSource := cspSource params +:+ " " +:+ Uri_toString h local;
         r_webviewJs := r_webviewJs resolvedParams;
         r_main := Uri_with_path local ("/" +:+ html_webviewJs params);
         r_connectSource := "'self' ws:" |}
  | None => resolvedParams
  end.

(** The template literal, one list element per source line. *)
Definition render (h : Host) (r : Resolved) : string :=
  String.concat nl
    [ "<html>";
      "    <head>";
      "        <meta charset=" +:+ dq +:+ "UTF-8" +:+ dq +:+ ">";
      "        <meta name=" +:+ dq +:+ "viewport" +:+ dq +:+ " content=" +:+ dq
        +:+ "width=device-width, initial-scale=1.0" +:+ dq +:+ ">";
      "        ";
      "        <meta";
      "            http-equiv=" +:+ dq +:+ "Content-Security-Policy" +:+ dq;
      "            content=";
      "                " +:+ dq +:+ "default-src 'none';";
      "                connect-src " +:+ r_connectSource r +:+ ";";
      "                img-src " +:+ r_cspSource r +:+ " https:;";
      "                script-src " +:+ r_cspSource r +:+ ";";
      "                style-src " +:+ r_cspSource r +:+ " 'unsafe-inline';";
      "                font-src 'self' data:;" +:+ dq;
      "        >";
      "    </head>";
      "    <body>";
      "        <div id=" +:+ dq +:+ "vue-app" +:+ dq +:+ "></div>";
      "        <!-- Dependencies -->";
      "        " +:+ r_scripts r;
      "        " +:+ r_stylesheets r;
      "        <!-- Main -->";
      "        <script src=" +:+ dq +:+ Uri_toString h (r_main r) +:+ dq +:+ "></script>";
      "    </body>";
      "</html>" ].

Definition resolveWebviewHtml (h : Host) (params : HtmlParams) : string :=
  render h (resolve_params h params).

(** [scripts = scripts.concat(`<script src="${element}"></script>\n\n`)]
    over [loadLibs]. *)
Definition script_tags (loadLibs : list string) : string :=
  foldl (fun acc element =>
           acc +:+ "<script src=" +:+ dq +:+ element +:+ dq +:+ "></script>" +:+ nl +:+ nl)
        EmptyString loadLibs.

Definition stylesheet_tags (loadCss : list string) : string :=
  foldl (fun acc element =>
           acc +:+ "<link rel=" +:+ dq +:+ "stylesheet" +:+ dq +:+ " href=" +:+ dq
               +:+ element +:+ dq +:+ ">" +:+ nl +:+ nl)
        EmptyString loadCss.

(** [needle] occurs in [s]. *)
Fixpoint occurs (needle s : string) : bool :=
  String.prefix needle s
  || match s with
     | EmptyString => false
     | String _ rest => occurs needle rest
     end.

(** The static parts of the template literal, in order: the text
    before the first substitution, between two substitutions, and
    after the last one. *)
Definition quasi0 : string :=
  String.concat nl
    [ "<html>";
      "    <head>";
      "        <meta charset=" +:+ dq +:+ "UTF-8" +:+ dq +:+ ">";
      "        <meta name=" +:+ dq +:+ "viewport" +:+ dq +:+ " content=" +:+ dq
        +:+ "width=device-width, initial-scale=1.0" +:+ dq +:+ ">";
      "        ";
      "        <meta";
      "            http-equiv=" +:+ dq +:+ "Content-Security-Policy" +:+ dq;
      "            content=";
      "                " +:+ dq +:+ "default-src 'none';";
      "                connect-src " ].
Definition quasi1 : string := ";" +:+ nl +:+ "                img-src ".
Definition quasi2 : string := " https:;" +:+ nl +:+ "                script-src ".
Definition quasi3 : string := ";" +:+ nl +:+ "                style-src ".
Definition quasi4 : string :=
  " 'unsafe-inline';" +:+ nl +:+
  String.concat nl
    [ "                font-src 'self' data:;" +:+ dq;
      "        >";
      "    </head>";
      "    <body>";
      "        <div id=" +:+ dq +:+ "vue-app" +:+ dq +:+ "></div>";
      "        <!-- Dependencies -->";
      "        " ].
Definition quasi5 : string := nl +:+ "        ".
Definition quasi6 : string :=
  nl +:+ "        <!-- Main -->" +:+ nl +:+ "        <script src=" +:+ dq.
Definition quasi7 : string :=
  dq +:+ "></script>" +:+ nl +:+ "    </body>" +:+ nl +:+ "</html>".


(** The token whose presence tells a dev-server document apart. *)
Definition ws : string := "ws:".

Definition starts_clear (t : string) : bool :=
  match t with
  | String c _ => negb (Ascii.eqb c "s") && negb (Ascii.eqb c ":")
  | EmptyString => false
  end.

Fixpoint ends_clear (t : string) : bool :=
  match t with
  | EmptyString => false
  | String c EmptyString => negb (Ascii.eqb c "w") && negb (Ascii.eqb c "s")
  | String _ rest => ends_clear rest
  end.

Definition static_clear (t : string) : bool :=
  starts_clear t && ends_clear t && negb (occurs ws t).

End Html.
Import Html.

(** [createVueWebview(params)], with [params.context] the host. *)
Definition createVueWebview (params : WebviewParams) (ctx : Host) : Panel :=
  let libsPath := path_join ctx [extensionPath ctx; "media"; "libs"] in
  let jsPath := path_join ctx [extensionPath ctx; "media"; "js"] in
  let cssPath := path_join ctx [extensionPath ctx; "media"; "css"] in
  let webviewPath := path_join ctx [extensionPath ctx; "dist"] in
  let resourcesPath := path_join ctx [extensionPath ctx; "resources"] in
  let loadLibs :=
    (getFilesAsVsCodeResources ctx libsPath ("vue.min.js" :: default [] (libFiles params))
     ++ getFilesAsVsCodeResources ctx jsPath ["loadVsCodeApi.js"])%list in
  let loadCss := getFilesAsVsCodeResources ctx cssPath (default [] (cssFiles params)) in
  let mainScript :=
    asWebviewUri ctx (Uri_file ctx (path_join ctx [webviewPath; webviewJs params])) in
  {| viewType := id params;
     title := name params;
     column := if isCloud9 ctx then ViewColumnTwo else ViewColumnBeside;
     enableScripts := true;
     enableCommandUris := true;
     localResourceRoots :=
       [Uri_file ctx libsPath; Uri_file ctx jsPath; Uri_file ctx cssPath;
        Uri_file ctx webviewPath; Uri_file ctx resourcesPath];
     retainContextWhenHidden :=
       if isCloud9 ctx then Some true else persistWithoutFocus params;
     html := resolveWebviewHtml ctx
               {| scripts := script_tags loadLibs;
                  stylesheets := stylesheet_tags loadCss;
                  cspSource := panel_cspSource ctx;
                  html_webviewJs := webviewJs params;
                  main := mainScript |} |}.

(* --------------------------------------------------------------------- *)
(* show: one session per call                                            *)
(* --------------------------------------------------------------------- *)

(** The promise [show] returns.  Its executor never calls [reject]. *)
Inductive promise_state : Type :=
| Pending
| Resolved (v : value).

(** A property of the object handed to [registerWebviewServer]. *)
Inductive handler : Type :=
| HInit (data : value)        (* const init = async () => data *)
| HSubmit                     (* const submit = async (response: S) => ... *)
| HCommand (c : command)      (* ...params.commands *)
| HEmitter (e : emitter).     (* ...this.emitters *)

(** [modifiedWebview] and the protocol registered on it. *)
Record WebviewServer := {
  ws_emitters : gmap string emitter;
  ws_arguments : value;
  ws_protocol : gmap string handler;
}.

Record Session := {
  panel : Panel;
  result : promise_state;
  panelDisposed : bool;
  onDisposeActive : bool;
  server : option WebviewServer;
  suspended : gmap nat (value * settle);
  next_call : nat;
}.

Definition set_result (r : promise_state) (s : Session) : Session :=
  {| panel := panel s; result := r; panelDisposed := panelDisposed s;
     onDisposeActive := onDisposeActive s; server := server s;
     suspended := suspended s; next_call := next_call s |}.

Definition set_panelDisposed (b : bool) (s : Session) : Session :=
  {| panel := panel s; result := result s; panelDisposed := b;
     onDisposeActive := onDisposeActive s; server := server s;
     suspended := suspended s; next_call := next_call s |}.

Definition set_onDisposeActive (b : bool) (s : Session) : Session :=
  {| panel := panel s; result := result s; panelDisposed := panelDisposed s;
     onDisposeActive := b; server := server s;
     suspended := suspended s; next_call := next_call s |}.

Definition set_suspended (m : gmap nat (value * settle)) (n : nat) (s : Session)
  : Session :=
  {| panel := panel s; result := result s; panelDisposed := panelDisposed s;
     onDisposeActive := onDisposeActive s; server := server s;
     suspended := m; next_call := n |}.

(** [resolve(v)]: a promise settles once, later calls do nothing. *)
Definition resolve (v : value) (s : Session) : Session :=
  match result s with
  | Pending => set_result (Resolved v) s
  | Resolved _ => s
  end.

(** [onDispose.dispose()]: the listener of line 58 is removed. *)
Definition onDispose_dispose (s : Session) : Session :=
  set_onDisposeActive false s.

(** [panel.dispose()], and equally the user closing the panel: the first
    disposal fires onDidDispose, whose listener (if still registered) is
    [() => resolve(undefined)]. *)
Definition panel_dispose (s : Session) : Session :=
  if panelDisposed s then s
  else
    let s' := set_panelDisposed true s in
    if onDisposeActive s' then resolve VUndefined s' else s'.

(** What the caller of a remote command gets back. *)
Inductive reply : Type :=
| NoHandler
| Returned (v : value)
| Failed (e : value)
| Awaiting (call : nat)
| IsEmitter (e : emitter).

(** The body of [submit] up to its [await]:
    [const validate = params.validateSubmit?.(response)] and the left
    operand of [validate && (await validate)]. *)
Definition submit_call (params : WebviewParams) (response : value) (s : Session)
  : Session * reply :=
  let suspend p :=
    (set_suspended (<[next_call s := (response, p)]> (suspended s)) (S (next_call s)) s,
     Awaiting (next_call s)) in
  match validateSubmit params with
  | None => (s, Returned VUndefined)
  | Some h =>
      match h response with
      | Throws e => (s, Failed e)
      | Returns v => if truthy v then suspend (Fulfilled v) else (s, Returned VUndefined)
      | ReturnsPromise p => suspend p
      end
  end.

(** The rest of [submit], once the awaited value is there. *)
Definition submit_resume (call : nat) (s : Session) : Session * reply :=
  match suspended s !! call with
  | None => (s, NoHandler)
  | Some (response, Forever) => (s, Awaiting call)
  | Some (response, Rejected e) =>
      (set_suspended (delete call (suspended s)) (next_call s) s, Failed e)
  | Some (response, Fulfilled v) =>
      let s' := set_suspended (delete call (suspended s)) (next_call s) s in
      if truthy v
      then (resolve response (panel_dispose (onDispose_dispose s')), Returned VUndefined)
      else (s', Returned VUndefined)
  end.

(** [{ init, submit, ...params.commands, ...this.emitters }] *)
Definition live_protocol (cmds : gmap string command) (ems : gmap string emitter)
    (data : value) : gmap string handler :=
  merge_over
    (merge_over (<["submit" := HSubmit]> (<["init" := HInit data]> ∅))
                (HCommand <$> cmds))
    (HEmitter <$> ems).

(** How [show] ends for its caller: the async function rejects, its
    first await never returns, or the executor has run and the promise
    of the session is handed back. *)
Inductive show_outcome : Type :=
| ShowRejected (e : value)
| ShowNeverSettles
| ShowOpened (s : Session).

(** [await params.validateData?.(data)] *)
Definition await_validateData (params : WebviewParams) (data : value) : settle :=
  match validateData params with
  | None => Fulfilled VUndefined
  | Some h =>
      match h data with
      | Returns v => Fulfilled v
      | ReturnsPromise p => p
      | Throws e => Rejected e
      end
  end.

Definition show (params : WebviewParams) (this : Instance) (data : value) (w : World)
  : show_outcome * World :=
  match await_validateData params data with
  | Rejected e => (ShowRejected e, w)
  | Forever => (ShowNeverSettles, w)
  | Fulfilled _ =>
      let p := createVueWebview params (context this) in
      let w' := {| next_emitter := next_emitter w; panels := p :: panels w |} in
      let s := {| panel := p; result := Pending; panelDisposed := false;
                  onDisposeActive := true;
                  server :=
                    match commands params with
                    | Some cmds =>
                        Some {| ws_emitters := emitters this;
                                ws_arguments := data;
                                ws_protocol := live_protocol cmds (emitters this) data |}
                    | None => None
                    end;
                  suspended := ∅; next_call := 0 |} in
      (ShowOpened s, w')
  end.

(* --------------------------------------------------------------------- *)
(* The event loop as seen by one session                                 *)
(* --------------------------------------------------------------------- *)

(** Modelled from the spec: [registerWebviewServer] of ./server is not
    among the sources.  Per the spec it binds every key of the protocol
    object as a remotely invokable command or event on the channel: a
    remote call of [k] runs the property registered under [k], with the
    arguments of the message, and answers with what it returns. *)
Definition invoke (params : WebviewParams) (k : string) (args : list value)
    (s : Session) : Session * reply :=
  match server s with
  | None => (s, NoHandler)
  | Some srv =>
      match ws_protocol srv !! k with
      | None => (s, NoHandler)
      | Some (HInit data) => (s, Returned data)
      | Some HSubmit => submit_call params (arg0 args) s
      | Some (HCommand c) =>
          let r := c args in
          (if cmd_disposes r then panel_dispose s else s, Returned (cmd_ret r))
      | Some (HEmitter e) => (s, IsEmitter e)
      end
  end.

Inductive event : Type :=
| PanelClosed                                (* the host signals disposal *)
| Invoke (k : string) (args : list value)    (* a message from the UI *)
| Resume (call : nat).                       (* an awaited hook settles *)

Definition step (params : WebviewParams) (s : Session) (e : event) : Session :=
  match e with
  | PanelClosed => panel_dispose s
  | Invoke k args => (invoke params k args s).1
  | Resume call => (submit_resume call s).1
  end.

Definition run (params : WebviewParams) (s : Session) (t : list event) : Session :=
  foldl (step params) s t.

(** The closure [submit] of lines 61-68 run on [response] with nothing
    in between its two halves: the call and, when it suspends, the
    continuation of its [await]. *)
Definition run_submit (params : WebviewParams) (response : value) (s : Session)
  : Session :=
  let '(s1, r) := submit_call params response s in
  match r with
  | Awaiting call => (submit_resume call s1).1
  | _ => s1
  end.

(** The same for whatever is registered under the name [submit]: the
    remote call and, when it suspends, its continuation. *)
Definition submit_to_completion (params : WebviewParams) (response : value)
    (s : Session) : Session :=
  let '(s1, r) := invoke params "submit" [response] s in
  match r with
  | Awaiting call => (submit_resume call s1).1
  | _ => s1
  end.

(** "The hook, applied to V and awaited, yields a truthy value". *)
Definition hook_truthy (r : hook_result) : bool :=
  match r with
  | Returns v | ReturnsPromise (Fulfilled v) => truthy v
  | _ => false
  end.

(** "The hook, applied to V, resolves to a falsy value". *)
Definition hook_falsy (r : hook_result) : bool :=
  match r with
  | Returns v | ReturnsPromise (Fulfilled v) => negb (truthy v)
  | _ => false
  end.

(** "The hook throws or rejects" with the error [e]. *)
Definition hook_fails_with (r : hook_result) (e : value) : Prop :=
  r = Throws e ∨ r = ReturnsPromise (Rejected e).

(* --------------------------------------------------------------------- *)
(* A concrete host and concrete descriptors, to run the model on         *)
(* --------------------------------------------------------------------- *)

Module Demo.

(** A host with a plain reading of URIs: [scheme://authority/path]. *)
Definition parse (s : string) : Uri :=
  match index 0 "://" s with
  | Some i =>
      let rest := substring (i + 3) (String.length s - (i + 3)) s in
      match index 0 "/" rest with
      | Some j =>
          {| scheme := substring 0 i s; authority := substring 0 j rest;
             path := substring j (String.length rest - j) rest;
             query := EmptyString; fragment := EmptyString |}
      | None =>
          {| scheme := substring 0 i s; authority := rest; path := "/";
             query := EmptyString; fragment := EmptyString |}
      end
  | None =>
      {| scheme := "file"; authority := EmptyString; path := s;
         query := EmptyString; fragment := EmptyString |}
  end.

Definition toString (u : Uri) : string :=
  scheme u +:+ "://" +:+ authority u +:+ path u.

Definition file (p : string) : Uri :=
  {| scheme := "file"; authority := EmptyString; path := p;
     query := EmptyString; fragment := EmptyString |}.

Definition resource (u : Uri) : Uri :=
  {| scheme := "vscode-resource"; authority := EmptyString; path := path u;
     query := EmptyString; fragment := EmptyString |}.

Definition host (env : option string) : Host :=
  {| isCloud9 := false;
     extensionPath := "/ext";
     path_join := String.concat "/";
     Uri_file := file;
     Uri_parse := parse;
     Uri_toString := toString;
     asWebviewUri := resource;
     panel_cspSource := "vscode-resource:";
     getFilesAsVsCodeResources :=
       fun dir files => (fun f => toString (resource (file (dir +:+ "/" +:+ f)))) <$> files;
     WEBPACK_DEVELOPER_SERVER := env |}.

Definition bundled : Host := host None.
Definition devserver : Host := host (Some "http://localhost:9000").

Definition ping : command := fun _ => CmdResult (VStr "pong") false.

(** [{id:"w1", name:"Test", webviewJs:"main.js",
      commands:{ping: () => "pong"}, events:{}}] *)
Definition w1 : WebviewParams :=
  {| id := "w1"; name := "Test"; webviewJs := "main.js";
     persistWithoutFocus := None; cssFiles := None; libFiles := None;
     commands := Some {[ "ping" := ping ]};
     events := Some ∅;
     validateData := None; validateSubmit := None |}.

(** The same plus [validateSubmit: (r) => r === "ok"]. *)
Definition is_ok : hook :=
  fun r => match r with
           | VStr s => Returns (VBool (String.eqb s "ok"))
           | _ => Returns (VBool false)
           end.

Definition w1_validated : WebviewParams :=
  {| id := "w1"; name := "Test"; webviewJs := "main.js";
     persistWithoutFocus := None; cssFiles := None; libFiles := None;
     commands := Some {[ "ping" := ping ]};
     events := Some ∅;
     validateData := None; validateSubmit := Some is_ok |}.

(** A descriptor whose own command is called [init]. *)
Definition own_init : command := fun _ => CmdResult (VNum 42) false.

Definition w_own_init : WebviewParams :=
  {| id := "w2"; name := "Own"; webviewJs := "main.js";
     persistWithoutFocus := None; cssFiles := None; libFiles := None;
     commands := Some {[ "init" := own_init ]};
     events := None;
     validateData := None; validateSubmit := None |}.

(** Two declared events and no commands. *)
Definition w_events : WebviewParams :=
  {| id := "w3"; name := "Events"; webviewJs := "main.js";
     persistWithoutFocus := None; cssFiles := None; libFiles := None;
     commands := None;
     events := Some (<["onSave" := 0]> {[ "onLoad" := 1 ]});
     validateData := None; validateSubmit := None |}.

(** [validateData] that rejects, and one that answers [false]. *)
Definition w_rejecting : WebviewParams :=
  {| id := "w4"; name := "Reject"; webviewJs := "main.js";
     persistWithoutFocus := None; cssFiles := None; libFiles := None;
     commands := None; events := None;
     validateData := Some (fun _ => ReturnsPromise (Rejected (VStr "bad data")));
     validateSubmit := None |}.

Definition w_declining : WebviewParams :=
  {| id := "w5"; name := "Decline"; webviewJs := "main.js";
     persistWithoutFocus := None; cssFiles := None; libFiles := None;
     commands := None; events := None;
     validateData := Some (fun _ => Returns (VBool false));
     validateSubmit := None |}.

Definition world0 : World := {| next_emitter := 2; panels := [] |}.

(** The session [show(data)] opens on a fresh instance, if it opens
    one; a closed session stands in when [show] does not get there. *)
Definition opened (params : WebviewParams) (data : value) : Session :=
  match (show params (construct params bundled world0).1 data world0).1 with
  | ShowOpened s => s
  | _ => {| panel := createVueWebview params bundled; result := Pending;
            panelDisposed := true; onDisposeActive := false; server := None;
            suspended := ∅; next_call := 0 |}
  end.

(** Commands and a declared event together; the declared emitter is an
    object that exists before any instance does. *)
Definition w_both : WebviewParams :=
  {| id := "w6"; name := "Both"; webviewJs := "main.js";
     persistWithoutFocus := Some true; cssFiles := Some ["base.css"]; libFiles := None;
     commands := Some {[ "ping" := ping ]};
     events := Some {[ "onSave" := 0 ]};
     validateData := None; validateSubmit := Some is_ok |}.


(** A command that closes the panel through the server object. *)
Definition cancel : command := fun _ => CmdResult VNull true.

Definition w_cancel : WebviewParams :=
  {| id := "w7"; name := "Cancel"; webviewJs := "main.js";
     persistWithoutFocus := None; cssFiles := None; libFiles := None;
     commands := Some {[ "cancel" := cancel ]};
     events := None;
     validateData := None; validateSubmit := None |}.

(** A hook whose promise rejects. *)
Definition w_failing : WebviewParams :=
  {| id := "w8"; name := "Failing"; webviewJs := "main.js";
     persistWithoutFocus := None; cssFiles := None; libFiles := None;
     commands := Some {[ "ping" := ping ]};
     events := None;
     validateData := None;
     validateSubmit := Some (fun _ => ReturnsPromise (Rejected (VStr "no"))) |}.

End Demo.

(* --------------------------------------------------------------------- *)
(* What the generated document is said to contain                        *)
(* --------------------------------------------------------------------- *)

(** The document of a development session against the server [url]. *)
Definition dev_document (h : Host) (params : HtmlParams) (url : string) : Prop :=
  let r := resolve_params h params in
  let doc := resolveWebviewHtml h params in
  let local := Uri_parse h url in
  let csp := cspSource params +:+ " " +:+ Uri_toString h local in
  let script := Uri_with_path local ("/" +:+ html_webviewJs params) in
  r_connectSource r = "'self' ws:"
  ∧ r_main r = script
  ∧ r_cspSource r = csp
  ∧ occurs "connect-src 'self' ws:;" doc = true
  ∧ occurs ("img-src " +:+ csp +:+ " https:;") doc = true
  ∧ occurs ("script-src " +:+ csp +:+ ";") doc = true
  ∧ occurs ("style-src " +:+ csp +:+ " 'unsafe-inline';") doc = true
  ∧ occurs ("<script src=" +:+ dq +:+ Uri_toString h script +:+ dq +:+ "></script>") doc
    = true.

(** The document of the bundled extension. *)
Definition bundled_document (h : Host) (params : HtmlParams) : Prop :=
  let r := resolve_params h params in
  let doc := resolveWebviewHtml h params in
  r_connectSource r = "none"
  ∧ r_main r = main params
  ∧ r_cspSource r = cspSource params
  ∧ occurs "connect-src none;" doc = true
  ∧ occurs ("img-src " +:+ cspSource params +:+ " https:;") doc = true
  ∧ occurs ("script-src " +:+ cspSource params +:+ ";") doc = true
  ∧ occurs ("style-src " +:+ cspSource params +:+ " 'unsafe-inline';") doc = true
  ∧ occurs ("<script src=" +:+ dq +:+ Uri_toString h (main params) +:+ dq +:+ "></script>")
      doc = true
  ∧ occurs ws doc
    = occurs ws (cspSource params) || occurs ws (scripts params)
      || occurs ws (stylesheets params) || occurs ws (Uri_toString h (main params)).

(** The reading under which the CSP source of a development document
    names the local server in place of the panel's own source. *)
Definition csp_source_replaced : Prop :=
  ∀ (h : Host) (params : HtmlParams) (url : string),
    WEBPACK_DEVELOPER_SERVER h = Some url → url ≠ EmptyString →
    r_cspSource (resolve_params h params) = Uri_toString h (Uri_parse h url).

(* --------------------------------------------------------------------- *)
(* Invariants of a running session and readings of the specification    *)
(* --------------------------------------------------------------------- *)

(** While the promise is pending the panel is there and so is the
    disposal listener. *)
Definition open_inv (s : Session) : Prop :=
  result s = Pending → panelDisposed s = false ∧ onDisposeActive s = true.

(** Every suspended call was handed out by the session. *)
Definition calls_inv (s : Session) : Prop :=
  ∀ call x, suspended s !! call = Some x → call < next_call s.

(** The reading under which the protocol field of an instance is a
    frozen object. *)
Definition protocol_field_frozen : Prop :=
  ∀ (params : WebviewParams) (ctx : Host) (w : World),
    Object_isFrozen (protocol (construct params ctx w).1) = true.

(** The reading under which the command registered as [init] hands back
    the initial data for every descriptor that declares commands. *)
Definition init_always_returns_data : Prop :=
  ∀ (params : WebviewParams) (ctx : Host) (w0 w w' : World) (data : value) (s : Session),
    commands params ≠ None →
    show params (construct params ctx w0).1 data w = (ShowOpened s, w') →
    (invoke params "init" [] s).2 = Returned data.

(** The reading under which a remote submit resolves the promise when
    no hook is declared or the declared hook yields a truthy value. *)
Definition submit_resolves_without_hook : Prop :=
  ∀ (params : WebviewParams) (ctx : Host) (w0 w w' : World) (data V : value) (s : Session),
    commands params ≠ None →
    show params (construct params ctx w0).1 data w = (ShowOpened s, w') →
    match validateSubmit params with
    | None => True
    | Some hk => hook_truthy (hk V) = true
    end →
    result (submit_to_completion params V s) = Resolved V.

(* --------------------------------------------------------------------- *)
(* Further notions about a running session                               *)
(* --------------------------------------------------------------------- *)

(** The two shapes a session has between events: open (pending, panel
    there, listener registered) or closed (resolved, panel disposed). *)
Definition lifecycle (s : Session) : Prop :=
  (result s = Pending ∧ panelDisposed s = false ∧ onDisposeActive s = true)
  ∨ (∃ v, result s = Resolved v ∧ panelDisposed s = true).

(** [validateSubmit] is declared and says yes to [V]. *)
Definition accepted (params : WebviewParams) (V : value) : bool :=
  match validateSubmit params with
  | Some hk => hook_truthy (hk V)
  | None => false
  end.

(** Every suspended submit whose validation ends truthy carries a value
    the hook said yes to. *)
Definition suspended_accepted (params : WebviewParams) (s : Session) : Prop :=
  ∀ call V u, suspended s !! call = Some (V, Fulfilled u) → truthy u = true →
              accepted params V = true.

(** Nothing but undefined or a value the hook said yes to has resolved
    the promise, and no other value is about to. *)
Definition validated (params : WebviewParams) (s : Session) : Prop :=
  (∀ v, result s = Resolved v → v = VUndefined ∨ accepted params v = true)
  ∧ suspended_accepted params s.

(** What the caller of the closure [submit] gets when nothing comes in
    between its two halves. *)
Definition submit_reply (params : WebviewParams) (response : value) (s : Session)
  : reply :=
  let '(s1, r) := submit_call params response s in
  match r with
  | Awaiting call => (submit_resume call s1).2
  | _ => r
  end.

(* ===================================================================== *)
(* Properties                                                            *)
(* ===================================================================== *)

(* --------------------------------------------------------------------- *)
(* Object spread                                                         *)
(* --------------------------------------------------------------------- *)

Section Spread.
Context {A : Type}.
Implicit Types a b : gmap string A.

Lemma lookup_merge_over a b k :
  merge_over a b !! k = match b !! k with Some x => Some x | None => a !! k end.
Proof.
  unfold merge_over. rewrite lookup_union.
  destruct (b !! k), (a !! k); reflexivity.
Qed.

Lemma lookup_merge_over_None a b k :
  b !! k = None → merge_over a b !! k = a !! k.
Proof. intros H. rewrite lookup_merge_over, H. reflexivity. Qed.

Lemma lookup_merge_over_Some a b k x :
  b !! k = Some x → merge_over a b !! k = Some x.
Proof. intros H. rewrite lookup_merge_over, H. reflexivity. Qed.

End Spread.

(* --------------------------------------------------------------------- *)
(* The constructor                                                       *)
(* --------------------------------------------------------------------- *)

Section Constructor.
Implicit Types (ks : list string) (acc : gmap string emitter) (proto : option emitter).

Lemma copy_emitters_cons k ks acc proto n :
  copy_emitters (k :: ks) acc proto n
  = if String.eqb k "__proto__"
    then copy_emitters ks acc (Some n) (S n)
    else copy_emitters ks (<[k := n]> acc) proto (S n).
Proof. reflexivity. Qed.

Lemma copy_emitters_next ks : ∀ acc proto n,
  (copy_emitters ks acc proto n).2 = n + length ks.
Proof.
  induction ks as [|k ks IH]; intros acc proto n.
  - cbn. lia.
  - rewrite copy_emitters_cons. destruct (String.eqb k "__proto__"); rewrite IH; cbn; lia.
Qed.

Lemma copy_emitters_other ks : ∀ acc proto n k,
  k ∉ ks → (copy_emitters ks acc proto n).1.1 !! k = acc !! k.
Proof.
  induction ks as [|k' ks IH]; intros acc proto n k Hk; [reflexivity|].
  apply not_elem_of_cons in Hk as [Hne Hk].
  rewrite copy_emitters_cons. destruct (String.eqb k' "__proto__");
    rewrite IH by assumption; [reflexivity|].
  apply lookup_insert_ne. congruence.
Qed.

(** The key [__proto__] never becomes an own property. *)
Lemma copy_emitters_proto_key ks : ∀ acc proto n,
  (copy_emitters ks acc proto n).1.1 !! "__proto__" = acc !! "__proto__".
Proof.
  induction ks as [|k ks IH]; intros acc proto n; [reflexivity|].
  rewrite copy_emitters_cons. destruct (String.eqb_spec k "__proto__") as [->|Hne];
    rewrite IH; [reflexivity|].
  apply lookup_insert_ne. exact Hne.
Qed.

Lemma copy_emitters_at ks : ∀ acc proto n i k,
  NoDup ks → ks !! i = Some k → k ≠ "__proto__" →
  (copy_emitters ks acc proto n).1.1 !! k = Some (n + i).
Proof.
  induction ks as [|k' ks IH]; intros acc proto n i k Hnd Hi Hk; [discriminate|].
  apply NoDup_cons in Hnd as [Hnotin Hnd].
  rewrite copy_emitters_cons. destruct i as [|i]; cbn in Hi.
  - injection Hi as ->.
    destruct (String.eqb_spec k "__proto__") as [?|_]; [contradiction|].
    rewrite copy_emitters_other by assumption.
    rewrite lookup_insert_eq. f_equal. lia.
  - destruct (String.eqb k' "__proto__");
      rewrite (IH _ _ _ i k) by assumption; f_equal; lia.
Qed.

Lemma copy_emitters_proto_none ks : ∀ acc proto n,
  "__proto__" ∉ ks → (copy_emitters ks acc proto n).1.2 = proto.
Proof.
  induction ks as [|k ks IH]; intros acc proto n Hk; [reflexivity|].
  apply not_elem_of_cons in Hk as [Hne Hk].
  rewrite copy_emitters_cons.
  destruct (String.eqb_spec k "__proto__") as [?|_]; [congruence|].
  apply IH, Hk.
Qed.


Lemma copy_emitters_dom ks : ∀ acc proto n,
  dom (copy_emitters ks acc proto n).1.1 = dom acc ∪ (list_to_set ks ∖ {["__proto__"]}).
Proof.
  induction ks as [|k ks IH]; intros acc proto n.
  - cbn. set_solver.
  - rewrite copy_emitters_cons.
    destruct (String.eqb_spec k "__proto__") as [->|Hne]; rewrite IH.
    + set_solver.
    + rewrite dom_insert_L. set_solver.
Qed.

Lemma copy_emitters_inv ks acc proto n k e :
  NoDup ks → (copy_emitters ks acc proto n).1.1 !! k = Some e →
  acc !! k = Some e ∨ (k ≠ "__proto__" ∧ ∃ i, ks !! i = Some k ∧ e = n + i).
Proof.
  intros Hnd Hl. destruct (decide (k = "__proto__")) as [->|Hne].
  { left. rewrite copy_emitters_proto_key in Hl. exact Hl. }
  destruct (decide (k ∈ ks)) as [Hin|Hnotin].
  - right. split; [exact Hne|].
    apply list_elem_of_lookup in Hin as [i Hi]. exists i. split; [assumption|].
    rewrite (copy_emitters_at ks acc proto n i k Hnd Hi Hne) in Hl. congruence.
  - left. rewrite copy_emitters_other in Hl by assumption. exact Hl.
Qed.

Lemma event_keys_NoDup params : NoDup (event_keys params).
Proof. unfold event_keys. apply NoDup_fst_map_to_list. Qed.

Lemma event_keys_length params :
  length (event_keys params) = size (spread (events params)).
Proof. unfold event_keys. rewrite length_fmap, length_map_to_list. reflexivity. Qed.

Lemma event_keys_set params :
  (list_to_set (event_keys params) : gset string) = dom (spread (events params)).
Proof.
  unfold event_keys. apply set_eq. intros k.
  rewrite elem_of_list_to_set, elem_of_dom, list_elem_of_fmap. split.
  - intros [[k' e] [-> Hin]]. apply elem_of_map_to_list in Hin. eauto.
  - intros [e He]. exists (k, e). split; [reflexivity|].
    apply elem_of_map_to_list. assumption.
Qed.

Lemma event_keys_elem params k :
  k ∈ event_keys params ↔ is_Some (spread (events params) !! k).
Proof.
  rewrite <- elem_of_dom, <- event_keys_set, elem_of_list_to_set. reflexivity.
Qed.

(** The constructor in terms of its loop. *)
Lemma construct_unfold params ctx w :
  construct params ctx w
  = (let r := copy_emitters (event_keys params) ∅ None (next_emitter w) in
     ({| context := ctx; emitters := r.1.1; emitters_proto := r.1.2;
         protocol := literal (protocol_of params) |},
      {| next_emitter := r.2; panels := panels w |})).
Proof.
  unfold construct.
  destruct (copy_emitters (event_keys params) ∅ None (next_emitter w)) as [[m pr] n].
  reflexivity.
Qed.

(** Where each emitter of a fresh instance comes from. *)
Lemma construct_emitters_lookup params ctx w k e :
  emitters (construct params ctx w).1 !! k = Some e ↔
  k ≠ "__proto__" ∧ ∃ i, event_keys params !! i = Some k ∧ e = next_emitter w + i.
Proof.
  rewrite construct_unfold. cbn [fst emitters]. split.
  - intros H. apply copy_emitters_inv in H; [|apply event_keys_NoDup].
    destruct H as [H|H]; [|assumption]. rewrite lookup_empty in H. discriminate.
  - intros (Hne & i & Hi & ->).
    apply copy_emitters_at; [apply event_keys_NoDup|assumption|assumption].
Qed.

Lemma construct_emitters_dom params ctx w :
  dom (emitters (construct params ctx w).1)
  = dom (spread (events params)) ∖ {["__proto__"]}.
Proof.
  rewrite construct_unfold. cbn [fst emitters].
  rewrite copy_emitters_dom, event_keys_set. set_solver.
Qed.

Lemma construct_next params ctx w :
  next_emitter (construct params ctx w).2
  = next_emitter w + size (spread (events params)).
Proof.
  rewrite construct_unfold. cbn [snd next_emitter].
  rewrite copy_emitters_next, event_keys_length. reflexivity.
Qed.

Lemma construct_panels params ctx w :
  panels (construct params ctx w).2 = panels w.
Proof. rewrite construct_unfold. reflexivity. Qed.

Lemma construct_protocol params ctx w :
  protocol (construct params ctx w).1 = literal (protocol_of params).
Proof. rewrite construct_unfold. reflexivity. Qed.

Lemma construct_context params ctx w :
  context (construct params ctx w).1 = ctx.
Proof. rewrite construct_unfold. reflexivity. Qed.

(** Without a declared key [__proto__] the prototype is left alone;
    with one, it is the emitter made for that key. *)
Lemma construct_proto_none params ctx w :
  spread (events params) !! "__proto__" = None →
  emitters_proto (construct params ctx w).1 = None.
Proof.
  intros H. rewrite construct_unfold. cbn [fst emitters_proto].
  apply copy_emitters_proto_none. rewrite event_keys_elem, H.
  intros [x Hx]. discriminate.
Qed.


Lemma construct_emitters_fresh params ctx w k e :
  emitters (construct params ctx w).1 !! k = Some e →
  next_emitter w ≤ e < next_emitter (construct params ctx w).2.
Proof.
  intros H. apply construct_emitters_lookup in H as (_ & i & Hi & ->).
  apply lookup_lt_Some in Hi. rewrite event_keys_length in Hi.
  rewrite construct_next. lia.
Qed.

End Constructor.

(** X18. For a descriptor whose event map has no own key __proto__, an
    instance of the compiled class has one emitter per key of the event
    map and no others, so exactly as many emitters as declared events;
    every one of them is allocated by this very construction, different
    keys get different emitters, and an instance constructed later
    (here after [d] further allocations, in a world with any panels)
    shares no emitter with it. *)
Theorem constructor_fresh_emitters
    (params : WebviewParams) (ctx ctx' : Host) (w : World) (d : nat) (ps : list Panel) :
  spread (events params) !! "__proto__" = None →
  let this := (construct params ctx w).1 in
  let w1 := (construct params ctx w).2 in
  let w2 := {| next_emitter := next_emitter w1 + d; panels := ps |} in
  let other := (construct params ctx' w2).1 in
  dom (emitters this) = dom (spread (events params))
  ∧ size (emitters this) = size (spread (events params))
  ∧ emitters_proto this = None
  ∧ (∀ k e, emitters this !! k = Some e → next_emitter w ≤ e < next_emitter w1)
  ∧ (∀ k k' e, emitters this !! k = Some e → emitters this !! k' = Some e → k = k')
  ∧ (∀ k k' e, emitters this !! k = Some e → emitters other !! k' ≠ Some e).
Proof.
  intros Hproto this w1 w2 other.
  assert (Hdom : dom (emitters this) = dom (spread (events params))).
  { unfold this. rewrite construct_emitters_dom.
    apply not_elem_of_dom in Hproto. set_solver. }
  split; [exact Hdom|].
  split; [rewrite <- !size_dom, Hdom; reflexivity|].
  split; [apply construct_proto_none, Hproto|].
  split; [intros k e; apply construct_emitters_fresh|].
  split.
  - intros k k' e H H'.
    apply construct_emitters_lookup in H as (_ & i & Hi & ->).
    apply construct_emitters_lookup in H' as (_ & j & Hj & Heq).
    assert (i = j) as -> by lia. congruence.
  - intros k k' e H H'. apply construct_emitters_fresh in H as [_ H].
    apply construct_emitters_fresh in H' as [H' _].
    change (next_emitter w2) with (next_emitter w1 + d) in H'.
    unfold w1 in H'. lia.
Qed.

(** Two instances of a descriptor with two events, built one after the
    other. *)
Lemma constructor_fresh_emitters_witness :
  map_to_list (emitters (construct Demo.w_events Demo.bundled Demo.world0).1)
    = [("onSave", 2); ("onLoad", 3)]
  ∧ size (emitters (construct Demo.w_events Demo.bundled Demo.world0).1) = 2
  ∧ emitters (construct Demo.w_events Demo.bundled
                (construct Demo.w_events Demo.bundled Demo.world0).2).1 !! "onSave"
    ≠ Some 2.
Proof.
  split; [vm_compute; reflexivity|].
  pose proof (constructor_fresh_emitters Demo.w_events Demo.bundled Demo.bundled
                Demo.world0 0 [] eq_refl) as (_ & Hsize & _ & _ & _ & Hdisj).
  split; [exact Hsize|].
  apply (Hdisj "onSave" "onSave" 2). vm_compute. reflexivity.
Defined.



(* --------------------------------------------------------------------- *)
(* The protocol field                                                    *)
(* --------------------------------------------------------------------- *)

Lemma builtin_placeholders_dom :
  dom builtin_placeholders = ({["submit"; "init"]} : gset string).
Proof. unfold builtin_placeholders. rewrite !dom_insert_L, dom_empty_L. set_solver. Qed.

Lemma protocol_of_lookup params k :
  protocol_of params !! k =
    match spread (events params) !! k with
    | Some e => Some (PEvent e)
    | None =>
        match spread (commands params) !! k with
        | Some c => Some (PCommand c)
        | None => builtin_placeholders !! k
        end
    end.
Proof.
  unfold protocol_of. rewrite !lookup_merge_over, !lookup_fmap.
  destruct (spread (events params) !! k); simpl; [reflexivity|].
  destruct (spread (commands params) !! k); reflexivity.
Qed.

Lemma set_property_new {A} (k : string) (x : A) (o : object A) :
  frozen o = false → k ≠ "__proto__" → props (set_property k x o) !! k = Some x.
Proof.
  intros Hf Hk. unfold set_property. rewrite Hf.
  destruct (props o !! k); [apply lookup_insert_eq|].
  destruct (String.eqb_spec k "__proto__"); [contradiction|apply lookup_insert_eq].
Qed.

(** C9, as the code has it. The protocol field of every instance is an
    ordinary object, not a frozen one (a later write to it takes
    effect), that merges the two built-in placeholders ([submit], which
    does nothing and returns undefined, and [init], which returns an
    empty object) with the descriptor's commands and events: a declared
    event wins over a declared command of the same name, either wins
    over a placeholder, and nothing else is in it.  Its content depends
    on the descriptor alone. *)
Theorem protocol_field_merge (params : WebviewParams) (ctx : Host) (w : World) :
  let this := (construct params ctx w).1 in
  Object_isFrozen (protocol this) = false
  ∧ (∀ k x, k ≠ "__proto__" → props (set_property k x (protocol this)) !! k = Some x)
  ∧ props (protocol this) = protocol_of params
  ∧ (∀ k, props (protocol this) !! k =
          match spread (events params) !! k with
          | Some e => Some (PEvent e)
          | None =>
              match spread (commands params) !! k with
              | Some c => Some (PCommand c)
              | None => builtin_placeholders !! k
              end
          end)
  ∧ dom (props (protocol this))
    = {["submit"; "init"]} ∪ dom (spread (commands params)) ∪ dom (spread (events params))
  ∧ builtin_placeholders !! "submit" = Some (PCommand placeholder_submit)
  ∧ builtin_placeholders !! "init" = Some (PCommand placeholder_init)
  ∧ (∀ args, placeholder_submit args = CmdResult VUndefined false)
  ∧ (∀ args, placeholder_init args = CmdResult (VObject []) false).
Proof.
  intros this. unfold this. rewrite construct_protocol.
  split; [reflexivity|].
  split; [intros k x Hk; apply set_property_new; [reflexivity|exact Hk]|].
  cbn [props literal].
  split; [reflexivity|].
  split; [apply protocol_of_lookup|].
  split.
  { unfold protocol_of, merge_over.
    rewrite !dom_union_L, !dom_fmap_L, builtin_placeholders_dom. set_solver. }
  repeat split.
Qed.

(** The spec's descriptor [w1]: [ping] is the declared command, the two
    built-ins stay placeholders; a descriptor with its own [init] shows
    that command instead. *)
Lemma protocol_field_merge_witness :
  props (protocol (construct Demo.w1 Demo.bundled Demo.world0).1) !! "ping"
    = Some (PCommand Demo.ping)
  ∧ props (protocol (construct Demo.w1 Demo.bundled Demo.world0).1) !! "init"
    = Some (PCommand placeholder_init)
  ∧ props (protocol (construct Demo.w_own_init Demo.bundled Demo.world0).1) !! "init"
    = Some (PCommand Demo.own_init)
  ∧ props (set_property "extra" (PEvent 7)
             (protocol (construct Demo.w1 Demo.bundled Demo.world0).1)) !! "extra"
    = Some (PEvent 7).
Proof.
  pose proof (protocol_field_merge Demo.w1 Demo.bundled Demo.world0)
    as (_ & Hw & _ & H1 & _).
  pose proof (protocol_field_merge Demo.w_own_init Demo.bundled Demo.world0)
    as (_ & _ & _ & H2 & _).
  rewrite (H1 "ping"), (H1 "init"), (H2 "init").
  split; [reflexivity|]. split; [reflexivity|]. split; [reflexivity|].
  apply Hw. discriminate.
Defined.

(** C9 as worded fails: the protocol object of the spec's descriptor w1
    is not frozen, and overwriting its submit entry takes effect. *)
Lemma protocol_field_not_frozen :
  Object_isFrozen (protocol (construct Demo.w1 Demo.bundled Demo.world0).1) = false
  ∧ props (set_property "submit" (PEvent 7)
             (protocol (construct Demo.w1 Demo.bundled Demo.world0).1)) !! "submit"
    = Some (PEvent 7)
  ∧ ¬ protocol_field_frozen.
Proof.
  split; [reflexivity|]. split; [vm_compute; reflexivity|].
  intros H. specialize (H Demo.w1 Demo.bundled Demo.world0).
  vm_compute in H. discriminate H.
Qed.

(* --------------------------------------------------------------------- *)
(* Strings and the HTML template                                         *)
(* --------------------------------------------------------------------- *)

Section Strings.
Implicit Types (n s p q : string) (c : ascii).

Lemma append_cons c s q : String c s +:+ q = String c (s +:+ q).
Proof. reflexivity. Qed.

Lemma append_assoc_r s p q : (s +:+ p) +:+ q = s +:+ p +:+ q.
Proof.
  induction s as [|c s IH]; [reflexivity|].
  rewrite !append_cons, IH. reflexivity.
Qed.

Lemma prefix_cons c n s :
  String.prefix (String c n) (String c s) = String.prefix n s.
Proof. cbn. destruct (ascii_dec c c); [reflexivity|congruence]. Qed.

Lemma prefix_app n : ∀ s q, String.prefix n s = true → String.prefix n (s +:+ q) = true.
Proof.
  induction n as [|c n IH]; intros s q H.
  - destruct (s +:+ q); reflexivity.
  - destruct s as [|c' s]; [discriminate|]. rewrite append_cons. cbn in *.
    destruct (ascii_dec c c'); [|discriminate]. apply IH, H.
Qed.

Lemma prefix_app_same p : ∀ n s,
  String.prefix n s = true → String.prefix (p +:+ n) (p +:+ s) = true.
Proof.
  induction p as [|c p IH]; intros n s H; [exact H|].
  rewrite !append_cons, prefix_cons. apply IH, H.
Qed.

Lemma occurs_prefix n s : String.prefix n s = true → occurs n s = true.
Proof. intros H. destruct s; cbn in *; rewrite H; reflexivity. Qed.

Lemma occurs_app_r n p : ∀ s, occurs n s = true → occurs n (p +:+ s) = true.
Proof.
  induction p as [|c p IH]; intros s H; [exact H|].
  rewrite append_cons. cbn.
  rewrite (IH s H). apply orb_true_r.
Qed.

(** A needle [a x b] is found where [x] was substituted between a
    text ending in [a] and a text starting with [b]. *)
Lemma occurs_between a b x pre A B :
  A = pre +:+ a → String.prefix b B = true →
  occurs (a +:+ x +:+ b) (A +:+ x +:+ B) = true.
Proof.
  intros -> Hb. rewrite append_assoc_r. apply occurs_app_r, occurs_prefix.
  apply prefix_app_same, prefix_app_same, Hb.
Qed.
End Strings.

Section Template.

Lemma render_quasis h r :
  render h r =
    quasi0 +:+ r_connectSource r +:+ quasi1 +:+ r_cspSource r +:+ quasi2 +:+ r_cspSource r
       +:+ quasi3 +:+ r_cspSource r +:+ quasi4 +:+ r_scripts r +:+ quasi5 +:+ r_stylesheets r
       +:+ quasi6 +:+ Uri_toString h (r_main r) +:+ quasi7.
Proof.
  unfold render. cbv [String.concat]. rewrite !append_assoc_r. reflexivity.
Qed.

End Template.

Section NoWs.
Implicit Types (a b s t x : string) (c : ascii).

Lemma occurs_cons n c s :
  occurs n (String c s) = String.prefix n (String c s) || occurs n s.
Proof. reflexivity. Qed.

Lemma occurs_ws_empty : occurs ws EmptyString = false.
Proof. reflexivity. Qed.

Lemma append_nil_l s : EmptyString +:+ s = s.
Proof. reflexivity. Qed.

Lemma prefix_nil s : String.prefix EmptyString s = true.
Proof. destruct s; reflexivity. Qed.

Ltac prefix_cases :=
  repeat (rewrite ?append_cons, ?append_nil_l, ?prefix_nil; cbn -[ascii_dec];
          try reflexivity;
          match goal with
          | |- context [ascii_dec ?u ?v] => destruct (ascii_dec u v); subst; try congruence
          end).

Lemma prefix_ws_right c b a (x : ascii) :
  c ≠ "s"%char → c ≠ ":"%char →
  String.prefix ws (String x (a +:+ String c b)) = String.prefix ws (String x a).
Proof.
  intros Hs Hc. destruct a as [|y [|z a]]; prefix_cases.
Qed.

Lemma occurs_ws_right c b : c ≠ "s"%char → c ≠ ":"%char → ∀ a,
  occurs ws (a +:+ String c b) = occurs ws a || occurs ws (String c b).
Proof.
  intros Hs Hc. induction a as [|x a IH]; [reflexivity|].
  rewrite append_cons, !(occurs_cons ws x), IH, prefix_ws_right by assumption.
  rewrite orb_assoc. reflexivity.
Qed.

Lemma prefix_ws_left c b a (x : ascii) :
  c ≠ "w"%char → c ≠ "s"%char →
  String.prefix ws (String x ((a +:+ String c EmptyString) +:+ b))
  = String.prefix ws (String x (a +:+ String c EmptyString)).
Proof.
  intros Hw Hs. destruct a as [|y [|z a]]; prefix_cases.
Qed.

Lemma occurs_ws_left c b : c ≠ "w"%char → c ≠ "s"%char → ∀ a,
  occurs ws ((a +:+ String c EmptyString) +:+ b)
  = occurs ws (a +:+ String c EmptyString) || occurs ws b.
Proof.
  intros Hw Hs. induction a as [|x a IH].
  - change (occurs ws (String c b) = occurs ws (String c EmptyString) || occurs ws b).
    rewrite !occurs_cons. cbn -[ascii_dec].
    destruct (ascii_dec "w" c); [congruence|reflexivity].
  - rewrite !append_cons, !(occurs_cons ws x), IH, prefix_ws_left by assumption.
    rewrite orb_assoc. reflexivity.
Qed.

Lemma starts_clear_inv t :
  starts_clear t = true → ∃ c t', t = String c t' ∧ c ≠ "s"%char ∧ c ≠ ":"%char.
Proof.
  destruct t as [|c t']; [discriminate|]. cbn. intros H.
  apply andb_true_iff in H as [H1 H2].
  apply negb_true_iff, Ascii.eqb_neq in H1, H2. eauto.
Qed.

Lemma ends_clear_inv t :
  ends_clear t = true →
  ∃ t' c, t = t' +:+ String c EmptyString ∧ c ≠ "w"%char ∧ c ≠ "s"%char.
Proof.
  induction t as [|c t IH]; [discriminate|]. destruct t as [|c' t].
  - cbn. intros H. apply andb_true_iff in H as [H1 H2].
    apply negb_true_iff, Ascii.eqb_neq in H1, H2.
    exists EmptyString, c. auto.
  - intros H. destruct (IH H) as (t' & d & -> & Hd).
    exists (String c t'), d. rewrite append_cons. auto.
Qed.

(** A static part that neither starts inside nor ends inside the
    needle keeps occurrences from straddling it. *)
Lemma occurs_ws_static x t rest :
  static_clear t = true →
  occurs ws (x +:+ t +:+ rest) = occurs ws x || occurs ws rest.
Proof.
  unfold static_clear. intros H.
  apply andb_true_iff in H as [H Hocc]. apply andb_true_iff in H as [Hst Hen].
  apply negb_true_iff in Hocc.
  destruct (ends_clear_inv t Hen) as (t2 & c2 & E2 & Hw2 & Hs2).
  destruct (starts_clear_inv t Hst) as (c1 & t1 & E1 & Hs1 & Hc1).
  assert (Hx : occurs ws (x +:+ t +:+ rest) = occurs ws x || occurs ws (t +:+ rest)).
  { rewrite E1, append_cons. apply occurs_ws_right; assumption. }
  rewrite Hx. f_equal.
  rewrite E2, occurs_ws_left by assumption. rewrite <- E2, Hocc. reflexivity.
Qed.

Lemma occurs_ws_static_last x t :
  static_clear t = true → occurs ws (x +:+ t) = occurs ws x.
Proof.
  intros H. pose proof (occurs_ws_static x t EmptyString H) as E.
  replace (t +:+ EmptyString) with t in E; [rewrite E; apply orb_false_r|].
  clear. induction t as [|c t IH]; [reflexivity|]. rewrite append_cons, <- IH. reflexivity.
Qed.

Lemma occurs_ws_static_first t rest :
  static_clear t = true → occurs ws (t +:+ rest) = occurs ws rest.
Proof. intros H. apply (occurs_ws_static EmptyString t rest H). Qed.

Lemma render_ws h r :
  occurs ws (render h r) =
    occurs ws (r_connectSource r) || occurs ws (r_cspSource r)
    || occurs ws (r_scripts r) || occurs ws (r_stylesheets r)
    || occurs ws (Uri_toString h (r_main r)).
Proof.
  rewrite render_quasis.
  rewrite occurs_ws_static_first by reflexivity.
  rewrite !occurs_ws_static by reflexivity.
  rewrite occurs_ws_static_last by reflexivity.
  destruct (occurs ws (r_connectSource r)), (occurs ws (r_cspSource r)),
    (occurs ws (r_scripts r)), (occurs ws (r_stylesheets r)); reflexivity.
Qed.
End NoWs.

Section Document.
Variables (h : Host) (params : HtmlParams).

Lemma local_server_unset :
  WEBPACK_DEVELOPER_SERVER h = None → local_server h = None.
Proof. unfold local_server. intros ->. reflexivity. Qed.

Lemma local_server_empty :
  WEBPACK_DEVELOPER_SERVER h = Some EmptyString → local_server h = None.
Proof. unfold local_server. intros ->. reflexivity. Qed.

Lemma local_server_set url :
  WEBPACK_DEVELOPER_SERVER h = Some url → url ≠ EmptyString →
  local_server h = Some url.
Proof.
  unfold local_server. intros -> Hne. cbn.
  destruct (String.eqb_spec url EmptyString); [contradiction|reflexivity].
Qed.

(** [occurs (a x b) doc] where [x] sits between two static parts. *)
Ltac between a b :=
  match goal with
  | |- occurs _ (?A +:+ ?x +:+ ?B) = true =>
      apply (occurs_between a b x
               (substring 0 (String.length A - String.length a) A) A B);
      [ vm_compute; reflexivity
      | first [ reflexivity | apply prefix_app; reflexivity ] ]
  end.

Lemma render_lines r :
  occurs ("connect-src " +:+ r_connectSource r +:+ ";") (render h r) = true
  ∧ occurs ("img-src " +:+ r_cspSource r +:+ " https:;") (render h r) = true
  ∧ occurs ("script-src " +:+ r_cspSource r +:+ ";") (render h r) = true
  ∧ occurs ("style-src " +:+ r_cspSource r +:+ " 'unsafe-inline';") (render h r) = true
  ∧ occurs ("<script src=" +:+ dq +:+ Uri_toString h (r_main r) +:+ dq +:+ "></script>")
      (render h r) = true.
Proof.
  rewrite render_quasis. repeat split.
  - between "connect-src " ";".
  - do 2 apply occurs_app_r. between "img-src " " https:;".
  - do 4 apply occurs_app_r. between "script-src " ";".
  - do 6 apply occurs_app_r. between "style-src " " 'unsafe-inline';".
  - do 12 apply occurs_app_r.
    between ("<script src=" +:+ dq) (dq +:+ "></script>").
Qed.

Lemma bundled_document_holds : local_server h = None → bundled_document h params.
Proof.
  intros E. unfold bundled_document, resolveWebviewHtml, resolve_params.
  rewrite E. cbn [r_connectSource r_main r_cspSource].
  split; [reflexivity|]. split; [reflexivity|]. split; [reflexivity|].
  match goal with |- context [render h ?r] => pose proof (render_lines r) as L;
    pose proof (render_ws h r) as W end.
  cbn [r_connectSource r_main r_cspSource r_scripts r_stylesheets] in L, W.
  destruct L as (L1 & L2 & L3 & L4 & L5).
  repeat (split; [assumption|]). exact W.
Qed.

Lemma dev_document_holds url : local_server h = Some url → dev_document h params url.
Proof.
  intros E. unfold dev_document, resolveWebviewHtml, resolve_params.
  rewrite E. cbn [r_connectSource r_main r_cspSource].
  split; [reflexivity|]. split; [reflexivity|]. split; [reflexivity|].
  match goal with |- context [render h ?r] => pose proof (render_lines r) as L end.
  cbn [r_connectSource r_main r_cspSource r_scripts r_stylesheets] in L.
  destruct L as (L1 & L2 & L3 & L4 & L5).
  repeat (split; [assumption|]). assumption.
Qed.

End Document.

(** C7, as the code has it. With the dev-server variable set to a
    non-empty URL the document has connect-src 'self' ws:, its main
    script is that URL with the path /webviewJs, and the source of
    img-src, script-src and style-src is the panel's own CSP source
    followed by a space and the server URL (extended, not replaced).
    With the variable unset (or empty) connect-src is none, the main
    script is the panel's bundled resource URI, the CSP source is the
    panel's own, and ws: occurs in the document only if a fragment the
    caller supplied (CSP source, script tags, stylesheet tags, main URI)
    contains it. *)
Theorem html_document (h : Host) (params : HtmlParams) :
  match WEBPACK_DEVELOPER_SERVER h with
  | Some url =>
      if String.eqb url EmptyString
      then bundled_document h params
      else dev_document h params url
  | None => bundled_document h params
  end.
Proof.
  destruct (WEBPACK_DEVELOPER_SERVER h) as [url|] eqn:E.
  - destruct (String.eqb_spec url EmptyString) as [->|Hne].
    + apply bundled_document_holds, local_server_empty, E.
    + apply dev_document_holds, local_server_set; assumption.
  - apply bundled_document_holds, local_server_unset, E.
Qed.

(** The panel of the spec's descriptor, bundled and against
    http://localhost:9000. *)
Lemma html_document_witness :
  dev_document Demo.devserver
    {| scripts := "S"; stylesheets := "T"; cspSource := "vscode-resource:";
       html_webviewJs := "main.js"; main := Demo.file "/ext/dist/main.js" |}
    "http://localhost:9000"
  ∧ bundled_document Demo.bundled
      {| scripts := "S"; stylesheets := "T"; cspSource := "vscode-resource:";
         html_webviewJs := "main.js"; main := Demo.file "/ext/dist/main.js" |}.
Proof.
  split.
  - exact (html_document Demo.devserver _).
  - exact (html_document Demo.bundled _).
Defined.

(** C7 as worded fails: against http://localhost:9000 the CSP source of
    the document still starts with the panel's own source, the server
    URL coming after it. *)
Lemma csp_source_not_replaced : ¬ csp_source_replaced.
Proof.
  intros H.
  assert (E := H Demo.devserver
                 {| scripts := "S"; stylesheets := "T"; cspSource := "vscode-resource:";
                    html_webviewJs := "main.js"; main := Demo.file "/ext/dist/main.js" |}
                 "http://localhost:9000" eq_refl ltac:(discriminate)).
  vm_compute in E. discriminate E.
Qed.

Example csp_source_devserver :
  r_cspSource
    (resolve_params Demo.devserver
       {| scripts := "S"; stylesheets := "T"; cspSource := "vscode-resource:";
          html_webviewJs := "main.js"; main := Demo.file "/ext/dist/main.js" |})
  = "vscode-resource: http://localhost:9000/".
Proof. reflexivity. Qed.

(* --------------------------------------------------------------------- *)
(* Sessions: what each operation touches                                 *)
(* --------------------------------------------------------------------- *)

Section Frames.
Implicit Types (s : Session) (v : value).

Lemma resolve_pending v s :
  result s = Pending → result (resolve v s) = Resolved v.
Proof. unfold resolve. intros ->. reflexivity. Qed.

Lemma resolve_settled v v' s :
  result s = Resolved v → resolve v' s = s.
Proof. unfold resolve. intros ->. reflexivity. Qed.

Lemma resolve_frame v s :
  panelDisposed (resolve v s) = panelDisposed s
  ∧ onDisposeActive (resolve v s) = onDisposeActive s
  ∧ server (resolve v s) = server s
  ∧ suspended (resolve v s) = suspended s
  ∧ next_call (resolve v s) = next_call s.
Proof. unfold resolve. destruct (result s); repeat split. Qed.

Lemma resolve_not_pending v s : result (resolve v s) ≠ Pending.
Proof. unfold resolve. destruct (result s) eqn:E; cbn; congruence. Qed.

Lemma panel_dispose_frame s :
  onDisposeActive (panel_dispose s) = onDisposeActive s
  ∧ server (panel_dispose s) = server s
  ∧ suspended (panel_dispose s) = suspended s
  ∧ next_call (panel_dispose s) = next_call s.
Proof.
  unfold panel_dispose. destruct (panelDisposed s); [repeat split|].
  destruct (onDisposeActive (set_panelDisposed true s)); [|repeat split].
  destruct (resolve_frame VUndefined (set_panelDisposed true s)) as (_ & -> & -> & -> & ->).
  repeat split.
Qed.

Lemma panel_dispose_disposed s : panelDisposed (panel_dispose s) = true.
Proof.
  unfold panel_dispose. destruct (panelDisposed s) eqn:E; [exact E|].
  destruct (onDisposeActive (set_panelDisposed true s)); [|reflexivity].
  destruct (resolve_frame VUndefined (set_panelDisposed true s)) as (-> & _).
  reflexivity.
Qed.

Lemma panel_dispose_settled v s :
  result s = Resolved v → result (panel_dispose s) = Resolved v.
Proof.
  intros H. unfold panel_dispose. destruct (panelDisposed s); [exact H|].
  cbn. destruct (onDisposeActive s); [|exact H].
  rewrite (resolve_settled v); [exact H|exact H].
Qed.

(** The listener of line 58 at work. *)
Lemma panel_dispose_open s :
  result s = Pending → panelDisposed s = false → onDisposeActive s = true →
  result (panel_dispose s) = Resolved VUndefined.
Proof.
  intros Hr Hd Ha. unfold panel_dispose. rewrite Hd. cbn. rewrite Ha.
  apply resolve_pending. exact Hr.
Qed.

(** Lines 64-66 on a pending session. *)
Lemma submit_tail_resolves V s :
  result s = Pending →
  let s' := resolve V (panel_dispose (onDispose_dispose s)) in
  result s' = Resolved V ∧ panelDisposed s' = true ∧ onDisposeActive s' = false.
Proof.
  intros Hr s'. unfold s'.
  assert (Hp : result (panel_dispose (onDispose_dispose s)) = Pending).
  { unfold panel_dispose, onDispose_dispose. cbn.
    destruct (panelDisposed s); exact Hr. }
  split; [apply resolve_pending, Hp|].
  destruct (resolve_frame V (panel_dispose (onDispose_dispose s))) as (-> & -> & _).
  split; [apply panel_dispose_disposed|].
  destruct (panel_dispose_frame (onDispose_dispose s)) as (-> & _). reflexivity.
Qed.

Lemma submit_tail_settled v V s :
  result s = Resolved v →
  result (resolve V (panel_dispose (onDispose_dispose s))) = Resolved v.
Proof.
  intros Hr. rewrite (resolve_settled v); apply panel_dispose_settled; exact Hr.
Qed.

Lemma submit_tail_frame V s :
  let s' := resolve V (panel_dispose (onDispose_dispose s)) in
  server s' = server s ∧ suspended s' = suspended s ∧ next_call s' = next_call s.
Proof.
  intros s'. unfold s'.
  destruct (resolve_frame V (panel_dispose (onDispose_dispose s)))
    as (_ & _ & -> & -> & ->).
  destruct (panel_dispose_frame (onDispose_dispose s)) as (_ & -> & -> & ->).
  repeat split.
Qed.

Lemma submit_call_frame params V s :
  let s' := (submit_call params V s).1 in
  result s' = result s ∧ panelDisposed s' = panelDisposed s
  ∧ onDisposeActive s' = onDisposeActive s ∧ server s' = server s.
Proof.
  unfold submit_call. destruct (validateSubmit params) as [hk|]; [|repeat split].
  destruct (hk V) as [v|p|e]; [destruct (truthy v)| |]; repeat split.
Qed.

Lemma submit_resume_server call s : server (submit_resume call s).1 = server s.
Proof.
  unfold submit_resume. destruct (suspended s !! call) as [[V [v|e|]]|]; try reflexivity.
  destruct (truthy v); [|reflexivity]. cbn [fst].
  destruct (submit_tail_frame V (set_suspended (delete call (suspended s)) (next_call s) s))
    as (-> & _). reflexivity.
Qed.

Lemma invoke_server params k args s : server (invoke params k args s).1 = server s.
Proof.
  unfold invoke. destruct (server s) as [srv|] eqn:E; [|exact E].
  destruct (ws_protocol srv !! k) as [[data| |c|e]|]; try exact E.
  - destruct (submit_call_frame params (arg0 args) s) as (_ & _ & _ & ->). exact E.
  - cbn [fst]. destruct (cmd_disposes (c args)); [|exact E].
    destruct (panel_dispose_frame s) as (_ & -> & _). exact E.
Qed.

Lemma step_server params s e : server (step params s e) = server s.
Proof.
  destruct e as [|k args|call]; cbn [step].
  - destruct (panel_dispose_frame s) as (_ & -> & _). reflexivity.
  - apply invoke_server.
  - apply submit_resume_server.
Qed.

Lemma run_server params t : ∀ s, server (run params s t) = server s.
Proof.
  induction t as [|e t IH]; intros s; [reflexivity|].
  cbn. change (server (run params (step params s e) t) = server s).
  rewrite IH. apply step_server.
Qed.

Lemma run_snoc params s t e :
  run params s (t ++ [e]) = step params (run params s t) e.
Proof. unfold run. rewrite foldl_app. reflexivity. Qed.

End Frames.

(* --------------------------------------------------------------------- *)
(* A settled promise stays as it is                                      *)
(* --------------------------------------------------------------------- *)

Section SettleOnce.
Variable params : WebviewParams.
Implicit Types (s : Session) (v : value).

Lemma submit_resume_settled call v s :
  result s = Resolved v → result (submit_resume call s).1 = Resolved v.
Proof.
  intros H. unfold submit_resume.
  destruct (suspended s !! call) as [[V [u|e|]]|]; try exact H.
  destruct (truthy u); [|exact H]. cbn [fst].
  apply submit_tail_settled. exact H.
Qed.

Lemma invoke_settled k args v s :
  result s = Resolved v → result (invoke params k args s).1 = Resolved v.
Proof.
  intros H. unfold invoke. destruct (server s) as [srv|]; [|exact H].
  destruct (ws_protocol srv !! k) as [[data| |c|e]|]; try exact H.
  - destruct (submit_call_frame params (arg0 args) s) as (-> & _). exact H.
  - cbn [fst]. destruct (cmd_disposes (c args)); [|exact H].
    apply panel_dispose_settled, H.
Qed.

Lemma step_settled e v s :
  result s = Resolved v → result (step params s e) = Resolved v.
Proof.
  intros H. destruct e as [|k args|call]; cbn [step].
  - apply panel_dispose_settled, H.
  - apply invoke_settled, H.
  - apply submit_resume_settled, H.
Qed.

Lemma run_settled t : ∀ s v,
  result s = Resolved v → result (run params s t) = Resolved v.
Proof.
  induction t as [|e t IH]; intros s v H; [exact H|].
  apply (IH (step params s e)), step_settled, H.
Qed.

End SettleOnce.

(** C2. Once the promise of a session is resolved with a value, no
    sequence of later events (disposal of the panel, remote calls of
    submit or of any other command, continuations of suspended submits)
    changes that value; in particular a disposal after a resolution by
    submit leaves the submitted value in place. *)
Theorem resolved_at_most_once
    (params : WebviewParams) (s : Session) (v : value) (t : list event) :
  result s = Resolved v →
  result (run params s t) = Resolved v
  ∧ result (step params (run params s t) PanelClosed) = Resolved v.
Proof.
  intros H. split.
  - apply run_settled, H.
  - apply step_settled, run_settled, H.
Qed.

(** The spec's scenario: submit("ok") passes the hook, then the panel's
    disposal event and a second submit arrive. *)
Lemma resolved_at_most_once_witness :
  let s := submit_to_completion Demo.w1_validated (VStr "ok")
             (Demo.opened Demo.w1_validated (VStr "boot")) in
  result s = Resolved (VStr "ok")
  ∧ result (run Demo.w1_validated s
              [PanelClosed; Invoke "submit" [VStr "ok"]; Resume 1; PanelClosed])
    = Resolved (VStr "ok").
Proof.
  intros s.
  assert (H : result s = Resolved (VStr "ok")) by (vm_compute; reflexivity).
  split; [exact H|].
  exact (proj1 (resolved_at_most_once Demo.w1_validated s (VStr "ok")
                  [PanelClosed; Invoke "submit" [VStr "ok"]; Resume 1; PanelClosed] H)).
Defined.

(* --------------------------------------------------------------------- *)
(* What show sets up, and what stays true while the session runs         *)
(* --------------------------------------------------------------------- *)

Section Opened.
Variables (params : WebviewParams) (this : Instance) (data : value).
Implicit Types (s : Session) (w : World).

Lemma show_opened w s w' :
  show params this data w = (ShowOpened s, w') →
  result s = Pending
  ∧ panelDisposed s = false
  ∧ onDisposeActive s = true
  ∧ suspended s = ∅
  ∧ next_call s = 0
  ∧ panel s = createVueWebview params (context this)
  ∧ panels w' = createVueWebview params (context this) :: panels w
  ∧ server s =
      match commands params with
      | Some cmds =>
          Some {| ws_emitters := emitters this; ws_arguments := data;
                  ws_protocol := live_protocol cmds (emitters this) data |}
      | None => None
      end.
Proof.
  unfold show. destruct (await_validateData params data); intros H; try discriminate.
  injection H as <- <-. repeat split.
Qed.

Lemma panel_dispose_open_inv s : open_inv s → open_inv (panel_dispose s).
Proof.
  intros I Hp. exfalso. revert Hp. unfold panel_dispose.
  destruct (panelDisposed s) eqn:Hd.
  - intros Hp. destruct (I Hp) as [? _]. congruence.
  - destruct (onDisposeActive (set_panelDisposed true s)) eqn:Ha.
    + apply resolve_not_pending.
    + cbn in *. intros Hp. destruct (I Hp) as [_ ?]. congruence.
Qed.

Lemma submit_resume_open_inv call s : open_inv s → open_inv (submit_resume call s).1.
Proof.
  intros I. unfold submit_resume.
  destruct (suspended s !! call) as [[V [u|e|]]|]; try exact I.
  destruct (truthy u); [|exact I]. cbn [fst].
  intros Hp. exfalso. revert Hp. apply resolve_not_pending.
Qed.

Lemma invoke_open_inv k args s : open_inv s → open_inv (invoke params k args s).1.
Proof.
  intros I. unfold invoke. destruct (server s) as [srv|]; [|exact I].
  destruct (ws_protocol srv !! k) as [[d| |c|e]|]; try exact I.
  - unfold open_inv.
    destruct (submit_call_frame params (arg0 args) s) as (-> & -> & -> & _). exact I.
  - cbn [fst]. destruct (cmd_disposes (c args)); [|exact I].
    apply panel_dispose_open_inv, I.
Qed.

Lemma step_open_inv e s : open_inv s → open_inv (step params s e).
Proof.
  destruct e as [|k args|call]; cbn [step].
  - apply panel_dispose_open_inv.
  - apply invoke_open_inv.
  - apply submit_resume_open_inv.
Qed.

Lemma run_open_inv t : ∀ s, open_inv s → open_inv (run params s t).
Proof.
  induction t as [|e t IH]; intros s I; [exact I|].
  apply (IH (step params s e)), step_open_inv, I.
Qed.

Lemma show_open_inv w s w' :
  show params this data w = (ShowOpened s, w') → open_inv s.
Proof. intros H _. apply show_opened in H as (_ & ? & ? & _). auto. Qed.

End Opened.

(** C3. In a session that show opened, whatever has happened so far, if
    the promise is still pending (no submit has resolved it) when the
    host signals the panel's disposal, the promise resolves with
    undefined. *)
Theorem disposal_resolves_undefined
    (params : WebviewParams) (this : Instance) (data : value) (w w' : World)
    (s : Session) (t : list event) :
  show params this data w = (ShowOpened s, w') →
  result (run params s t) = Pending →
  result (step params (run params s t) PanelClosed) = Resolved VUndefined.
Proof.
  intros Hshow Hp.
  pose proof (run_open_inv params t s (show_open_inv params this data w s w' Hshow)) as I.
  destruct (I Hp) as [Hd Ha].
  apply panel_dispose_open; assumption.
Qed.

(** The spec's scenario: show, a submit that the hook turns down, then
    the panel is closed. *)
Lemma disposal_resolves_undefined_witness :
  result (run Demo.w1_validated (Demo.opened Demo.w1_validated (VStr "boot"))
            [Invoke "ping" []; Invoke "submit" [VStr "bad"]; PanelClosed])
  = Resolved VUndefined.
Proof.
  apply (disposal_resolves_undefined Demo.w1_validated
           (construct Demo.w1_validated Demo.bundled Demo.world0).1 (VStr "boot")
           Demo.world0
           (show Demo.w1_validated (construct Demo.w1_validated Demo.bundled Demo.world0).1
              (VStr "boot") Demo.world0).2
           (Demo.opened Demo.w1_validated (VStr "boot"))
           [Invoke "ping" []; Invoke "submit" [VStr "bad"]]).
  - reflexivity.
  - vm_compute. reflexivity.
Defined.

(* --------------------------------------------------------------------- *)
(* validateData                                                          *)
(* --------------------------------------------------------------------- *)

(** C8. When a validateData hook is declared and it throws or its
    promise rejects with [e], show rejects with [e] towards its caller
    and the world is as before: no panel has been created.  When the
    hook returns a value or its promise fulfils, whatever the value
    (falsy included), show goes on: exactly one panel is created and the
    session opens pending on it. *)
Theorem validateData_outcome
    (params : WebviewParams) (this : Instance) (data : value) (w : World) (hk : hook) :
  validateData params = Some hk →
  (∀ e, hook_fails_with (hk data) e → show params this data w = (ShowRejected e, w))
  ∧ (∀ v, hk data = Returns v ∨ hk data = ReturnsPromise (Fulfilled v) →
          ∃ s, show params this data w
               = (ShowOpened s,
                  {| next_emitter := next_emitter w;
                     panels := createVueWebview params (context this) :: panels w |})
               ∧ panel s = createVueWebview params (context this)
               ∧ result s = Pending).
Proof.
  intros Hk. split.
  - intros e [E|E]; unfold show, await_validateData; rewrite Hk, E; reflexivity.
  - intros v [E|E]; unfold show, await_validateData; rewrite Hk, E;
      eexists; repeat split.
Qed.

(** A hook that rejects with "bad data", and one that answers false. *)
Lemma validateData_outcome_witness :
  show Demo.w_rejecting (construct Demo.w_rejecting Demo.bundled Demo.world0).1
    VUndefined Demo.world0
  = (ShowRejected (VStr "bad data"), Demo.world0)
  ∧ ∃ s, (show Demo.w_declining (construct Demo.w_declining Demo.bundled Demo.world0).1
            VUndefined Demo.world0).1 = ShowOpened s
         ∧ truthy (VBool false) = false.
Proof.
  split.
  - apply (proj1 (validateData_outcome Demo.w_rejecting _ VUndefined Demo.world0 _ eq_refl)).
    right. reflexivity.
  - destruct (proj2 (validateData_outcome Demo.w_declining
                       (construct Demo.w_declining Demo.bundled Demo.world0).1
                       VUndefined Demo.world0 _ eq_refl) (VBool false))
      as (s & Hs & _).
    + left. reflexivity.
    + exists s. rewrite Hs. split; reflexivity.
Defined.

(* --------------------------------------------------------------------- *)
(* The registered protocol                                               *)
(* --------------------------------------------------------------------- *)

Lemma live_protocol_lookup cmds ems data k :
  live_protocol cmds ems data !! k =
    match ems !! k with
    | Some e => Some (HEmitter e)
    | None =>
        match cmds !! k with
        | Some c => Some (HCommand c)
        | None =>
            if decide (k = "submit") then Some HSubmit
            else if decide (k = "init") then Some (HInit data)
            else None
        end
    end.
Proof.
  unfold live_protocol. rewrite !lookup_merge_over, !lookup_fmap.
  destruct (ems !! k); [reflexivity|]. destruct (cmds !! k); [reflexivity|]. cbn.
  rewrite lookup_insert. destruct (decide ("submit" = k)) as [<-|Hs].
  - rewrite decide_True by reflexivity. reflexivity.
  - rewrite decide_False by congruence.
    rewrite lookup_insert. destruct (decide ("init" = k)) as [<-|Hi].
    + rewrite decide_True by reflexivity. reflexivity.
    + rewrite decide_False by congruence. apply lookup_empty.
Qed.

Lemma construct_emitters_None params ctx w k :
  spread (events params) !! k = None → emitters (construct params ctx w).1 !! k = None.
Proof.
  intros H. apply not_elem_of_dom. rewrite construct_emitters_dom.
  apply not_elem_of_dom in H. set_solver.
Qed.

(** What the session of a fresh instance has under a name that the
    descriptor leaves alone. *)
Lemma registered_builtin params ctx w0 w w' data s cmds k t :
  commands params = Some cmds →
  cmds !! k = None →
  spread (events params) !! k = None →
  show params (construct params ctx w0).1 data w = (ShowOpened s, w') →
  ∃ srv, server (run params s t) = Some srv
         ∧ ws_protocol srv !! k =
             if decide (k = "submit") then Some HSubmit
             else if decide (k = "init") then Some (HInit data)
             else None.
Proof.
  intros Hc Hk He Hshow.
  apply show_opened in Hshow as (_ & _ & _ & _ & _ & _ & _ & Hsrv).
  rewrite Hc in Hsrv. eexists. split.
  - rewrite run_server. exact Hsrv.
  - cbn. rewrite live_protocol_lookup, Hk.
    rewrite (construct_emitters_None params ctx w0 k He). reflexivity.
Qed.

(** C5, as the code has it. On a descriptor that declares commands and
    none of whose commands or events is itself named init, the command
    registered as init returns, at any point of the session and for
    every initial data (undefined included), exactly the data that was
    passed to show. *)
Theorem init_returns_initial_data
    (params : WebviewParams) (ctx : Host) (w0 w w' : World) (data : value)
    (s : Session) (cmds : gmap string command) (t : list event) :
  commands params = Some cmds →
  cmds !! "init" = None →
  spread (events params) !! "init" = None →
  show params (construct params ctx w0).1 data w = (ShowOpened s, w') →
  invoke params "init" [] (run params s t) = (run params s t, Returned data).
Proof.
  intros Hc Hk He Hshow.
  destruct (registered_builtin params ctx w0 w w' data s cmds "init" t Hc Hk He Hshow)
    as (srv & Hsrv & Hinit).
  unfold invoke. rewrite Hsrv, Hinit. reflexivity.
Qed.

Lemma init_returns_initial_data_witness :
  invoke Demo.w1 "init" []
    (run Demo.w1 (Demo.opened Demo.w1 VUndefined) [Invoke "ping" []])
  = (run Demo.w1 (Demo.opened Demo.w1 VUndefined) [Invoke "ping" []],
     Returned VUndefined).
Proof.
  apply (init_returns_initial_data Demo.w1 Demo.bundled Demo.world0 Demo.world0
           (show Demo.w1 (construct Demo.w1 Demo.bundled Demo.world0).1
              VUndefined Demo.world0).2
           VUndefined (Demo.opened Demo.w1 VUndefined) {[ "ping" := Demo.ping ]}).
  - reflexivity.
  - vm_compute. reflexivity.
  - vm_compute. reflexivity.
  - reflexivity.
Defined.

(** C5 as worded fails: a descriptor whose own command is called init
    has that command registered, and show("boot") then init() gives 42. *)
Lemma init_overridden_by_descriptor :
  (invoke Demo.w_own_init "init" [] (Demo.opened Demo.w_own_init (VStr "boot"))).2
  = Returned (VNum 42)
  ∧ ¬ init_always_returns_data.
Proof.
  split; [vm_compute; reflexivity|].
  intros H.
  assert (E := H Demo.w_own_init Demo.bundled Demo.world0 Demo.world0
                 (show Demo.w_own_init (construct Demo.w_own_init Demo.bundled Demo.world0).1
                    (VStr "boot") Demo.world0).2
                 (VStr "boot") (Demo.opened Demo.w_own_init (VStr "boot"))
                 ltac:(discriminate) eq_refl).
  vm_compute in E. discriminate E.
Qed.

(* --------------------------------------------------------------------- *)
(* A descriptor without commands                                         *)
(* --------------------------------------------------------------------- *)

Section NoCommands.
Variable params : WebviewParams.
Implicit Types (s : Session) (t : list event).

Lemma panel_dispose_result s :
  result s = Pending →
  result (panel_dispose s) = Pending ∨ result (panel_dispose s) = Resolved VUndefined.
Proof.
  intros H. unfold panel_dispose. destruct (panelDisposed s); [left; exact H|].
  destruct (onDisposeActive (set_panelDisposed true s)); [right|left; exact H].
  apply resolve_pending. exact H.
Qed.

Lemma step_unregistered s e :
  server s = None → suspended s = ∅ →
  step params s e = match e with PanelClosed => panel_dispose s | _ => s end.
Proof.
  intros Hsrv Hsus. destruct e as [|k args|call]; cbn [step]; [reflexivity| |].
  - unfold invoke. rewrite Hsrv. reflexivity.
  - unfold submit_resume. rewrite Hsus, lookup_empty. reflexivity.
Qed.

Lemma run_unregistered s t :
  server s = None → suspended s = ∅ → result s = Pending →
  server (run params s t) = None
  ∧ suspended (run params s t) = ∅
  ∧ (result (run params s t) = Pending
     ∨ (result (run params s t) = Resolved VUndefined ∧ PanelClosed ∈ t)).
Proof.
  intros Hsrv Hsus Hp. induction t as [|e t IH] using rev_ind.
  - repeat split; [exact Hsrv|exact Hsus|left; exact Hp].
  - destruct IH as (Hs & Hu & Hr).
    rewrite run_snoc, (step_unregistered _ e Hs Hu).
    destruct e as [|k args|call].
    + destruct (panel_dispose_frame (run params s t)) as (_ & -> & -> & _).
      split; [exact Hs|]. split; [exact Hu|].
      destruct Hr as [Hr|[Hr _]].
      * destruct (panel_dispose_result _ Hr) as [H|H]; [left; exact H|right].
        split; [exact H|]. apply elem_of_app. right. apply list_elem_of_singleton.
        reflexivity.
      * right. split; [apply panel_dispose_settled, Hr|].
        apply elem_of_app. right. apply list_elem_of_singleton. reflexivity.
    + split; [exact Hs|]. split; [exact Hu|].
      destruct Hr as [Hr|[Hr Hin]]; [left; exact Hr|right].
      split; [exact Hr|]. apply elem_of_app. left. exact Hin.
    + split; [exact Hs|]. split; [exact Hu|].
      destruct Hr as [Hr|[Hr Hin]]; [left; exact Hr|right].
      split; [exact Hr|]. apply elem_of_app. left. exact Hin.
Qed.

End NoCommands.

(** C10. For a descriptor without a commands map, show registers no
    protocol: at every point of the session there is no server, every
    remote call (init and submit included) finds no handler and changes
    nothing, and the promise is either pending or resolved with
    undefined, the latter only once the panel's disposal event has
    arrived; when it arrives on a pending session it does resolve it. *)
Theorem no_commands_no_protocol
    (params : WebviewParams) (this : Instance) (data : value) (w w' : World)
    (s : Session) (t : list event) :
  commands params = None →
  show params this data w = (ShowOpened s, w') →
  server (run params s t) = None
  ∧ (∀ k args, invoke params k args (run params s t) = (run params s t, NoHandler))
  ∧ (∀ v, result (run params s t) = Resolved v → v = VUndefined ∧ PanelClosed ∈ t)
  ∧ (result (run params s t) = Pending →
     result (run params s (t ++ [PanelClosed])) = Resolved VUndefined).
Proof.
  intros Hc Hshow.
  pose proof (show_open_inv params this data w s w' Hshow) as I.
  apply show_opened in Hshow as (Hp & _ & _ & Hsus & _ & _ & _ & Hsrv).
  rewrite Hc in Hsrv.
  destruct (run_unregistered params s t Hsrv Hsus Hp) as (Hs & Hu & Hr).
  split; [exact Hs|]. split.
  { intros k args. unfold invoke. rewrite Hs. reflexivity. }
  split.
  - intros v Hv. destruct Hr as [Hr|[Hr Hin]]; [congruence|].
    split; [congruence|exact Hin].
  - intros Hpt. rewrite run_snoc. cbn [step].
    destruct (run_open_inv params t s I Hpt) as [Hd Ha].
    apply panel_dispose_open; assumption.
Qed.

(** A descriptor with two events and no commands: a remote submit finds
    nothing, the disposal resolves with undefined. *)
Lemma no_commands_no_protocol_witness :
  invoke Demo.w_events "submit" [VStr "ok"] (Demo.opened Demo.w_events VNull)
  = (Demo.opened Demo.w_events VNull, NoHandler)
  ∧ result (run Demo.w_events (Demo.opened Demo.w_events VNull)
              [Invoke "submit" [VStr "ok"]; Resume 0; PanelClosed])
    = Resolved VUndefined.
Proof.
  pose proof (no_commands_no_protocol Demo.w_events
                (construct Demo.w_events Demo.bundled Demo.world0).1 VNull Demo.world0
                (show Demo.w_events (construct Demo.w_events Demo.bundled Demo.world0).1
                   VNull Demo.world0).2
                (Demo.opened Demo.w_events VNull)) as H.
  split.
  - exact (proj1 (proj2 (H [] eq_refl eq_refl)) "submit" [VStr "ok"]).
  - apply (proj2 (proj2 (proj2 (H [Invoke "submit" [VStr "ok"]; Resume 0]
                                  eq_refl eq_refl)))).
    vm_compute. reflexivity.
Defined.

(* --------------------------------------------------------------------- *)
(* submit                                                                *)
(* --------------------------------------------------------------------- *)

Section Submit.
Variable params : WebviewParams.
Implicit Types (s : Session) (V v : value) (t : list event).

(** What the first half of [submit] does to the suspended calls. *)
Lemma submit_call_suspended V s :
  (suspended (submit_call params V s).1 = suspended s
   ∧ next_call (submit_call params V s).1 = next_call s)
  ∨ (∃ p, suspended (submit_call params V s).1
          = <[next_call s := (V, p)]> (suspended s)
          ∧ next_call (submit_call params V s).1 = S (next_call s)).
Proof.
  unfold submit_call. destruct (validateSubmit params) as [hk|]; [|left; split; reflexivity].
  destruct (hk V) as [v|p|e].
  - destruct (truthy v); [right; eexists; split; reflexivity|left; split; reflexivity].
  - right; eexists; split; reflexivity.
  - left; split; reflexivity.
Qed.

(** What [submit_resume c] does to the suspended calls. *)
Lemma submit_resume_suspended c s :
  next_call (submit_resume c s).1 = next_call s
  ∧ (suspended (submit_resume c s).1 = suspended s
     ∨ suspended (submit_resume c s).1 = delete c (suspended s)).
Proof.
  unfold submit_resume. destruct (suspended s !! c) as [[V [v|e|]]|];
    try (split; [reflexivity|left; reflexivity]);
    try (split; [reflexivity|right; reflexivity]).
  destruct (truthy v); [|split; [reflexivity|right; reflexivity]]. cbn [fst].
  destruct (submit_tail_frame V (set_suspended (delete c (suspended s)) (next_call s) s))
    as (_ & -> & ->).
  split; [reflexivity|right; reflexivity].
Qed.

Lemma step_calls e s :
  calls_inv s →
  calls_inv (step params s e)
  ∧ ∀ c x, suspended s !! c = Some x → e ≠ Resume c →
           suspended (step params s e) !! c = Some x.
Proof.
  intros I. destruct e as [|k args|call]; cbn [step].
  - destruct (panel_dispose_frame s) as (_ & _ & Hs & Hn).
    split; [|intros c x H _; rewrite Hs; exact H].
    intros c x. rewrite Hs, Hn. apply I.
  - assert (Hsame : ∀ s', suspended s' = suspended s → next_call s' = next_call s →
              calls_inv s' ∧ ∀ c x, suspended s !! c = Some x → Invoke k args ≠ Resume c →
                                    suspended s' !! c = Some x).
    { intros s' Hs Hn. split; [|intros c x H _; rewrite Hs; exact H].
      intros c x. rewrite Hs, Hn. apply I. }
    unfold invoke. destruct (server s) as [srv|]; [|apply Hsame; reflexivity].
    destruct (ws_protocol srv !! k) as [[d| |cmd|em]|]; try (apply Hsame; reflexivity).
    + destruct (submit_call_suspended (arg0 args) s) as [[Hs Hn]|(p & Hs & Hn)];
        [apply Hsame; assumption|].
      split.
      * intros c x. rewrite Hs, Hn. intros H.
        apply lookup_insert_Some in H as [[<- _]|[_ H]]; [lia|].
        apply I in H. lia.
      * intros c x H _. rewrite Hs, lookup_insert_ne; [exact H|].
        apply I in H. lia.
    + cbn [fst]. destruct (cmd_disposes (cmd args)); [|apply Hsame; reflexivity].
      destruct (panel_dispose_frame s) as (_ & _ & Hs & Hn). apply Hsame; assumption.
  - destruct (submit_resume_suspended call s) as (Hn & [Hs|Hs]).
    + split; [|intros c x H _; rewrite Hs; exact H].
      intros c x. rewrite Hs, Hn. apply I.
    + split.
      * intros c x. rewrite Hs, Hn. intros H.
        apply lookup_delete_Some in H as [_ H]. apply (I _ _ H).
      * intros c x H Hne. rewrite Hs, lookup_delete_ne; [exact H|congruence].
Qed.

Lemma run_calls t : ∀ s,
  calls_inv s →
  calls_inv (run params s t)
  ∧ ∀ c x, suspended s !! c = Some x → Resume c ∉ t →
           suspended (run params s t) !! c = Some x.
Proof.
  induction t as [|e t IH]; intros s I; [split; [exact I|auto]|].
  destruct (step_calls e s I) as [I' Hkeep].
  destruct (IH _ I') as [I'' Hkeep'].
  split; [exact I''|].
  intros c x H Hnotin. apply not_elem_of_cons in Hnotin as [Hne Hnotin].
  apply Hkeep'; [|exact Hnotin]. apply Hkeep; [exact H|congruence].
Qed.

(** Without a hook [validate] is undefined and the guard of line 63 is
    false: the call returns at once and changes nothing. *)
Lemma submit_call_no_hook V s :
  validateSubmit params = None → submit_call params V s = (s, Returned VUndefined).
Proof. intros H. unfold submit_call. rewrite H. reflexivity. Qed.

(** A hook that says yes suspends the call on a value that is truthy. *)
Lemma submit_call_truthy hk V s :
  validateSubmit params = Some hk → hook_truthy (hk V) = true →
  ∃ v, truthy v = true
       ∧ submit_call params V s
         = (set_suspended (<[next_call s := (V, Fulfilled v)]> (suspended s))
              (S (next_call s)) s,
            Awaiting (next_call s)).
Proof.
  intros Hk Ht. unfold submit_call. rewrite Hk.
  destruct (hk V) as [v|[v|e|]|e]; cbn in Ht; try discriminate;
    exists v; (split; [exact Ht|]); [rewrite Ht|]; reflexivity.
Qed.

Lemma submit_resume_truthy c V v s :
  suspended s !! c = Some (V, Fulfilled v) → truthy v = true → result s = Pending →
  result (submit_resume c s).1 = Resolved V
  ∧ panelDisposed (submit_resume c s).1 = true
  ∧ onDisposeActive (submit_resume c s).1 = false.
Proof.
  intros Hc Ht Hp. unfold submit_resume. rewrite Hc, Ht. cbn [fst].
  apply submit_tail_resolves. exact Hp.
Qed.

Lemma submit_resume_falsy c V v s :
  suspended s !! c = Some (V, Fulfilled v) → truthy v = false →
  (submit_resume c s).1 = set_suspended (delete c (suspended s)) (next_call s) s.
Proof. intros Hc Ht. unfold submit_resume. rewrite Hc, Ht. reflexivity. Qed.

(** The closure, start to end, on a hook that says yes. *)
Lemma run_submit_truthy hk V s :
  validateSubmit params = Some hk → hook_truthy (hk V) = true → result s = Pending →
  result (run_submit params V s) = Resolved V
  ∧ panelDisposed (run_submit params V s) = true
  ∧ onDisposeActive (run_submit params V s) = false.
Proof.
  intros Hk Ht Hp. unfold run_submit.
  destruct (submit_call_truthy hk V s Hk Ht) as (v & Hv & ->).
  apply (submit_resume_truthy _ V v); [apply lookup_insert_eq|exact Hv|exact Hp].
Qed.

(** The closure, start to end, on a hook that says no. *)
Lemma run_submit_falsy hk V s :
  validateSubmit params = Some hk → hook_falsy (hk V) = true → calls_inv s →
  ∃ n, run_submit params V s = set_suspended (suspended s) n s.
Proof.
  intros Hk Hf I. unfold run_submit, submit_call. rewrite Hk.
  destruct (hk V) as [v|[v|e|]|e]; cbn in Hf; try discriminate;
    apply negb_true_iff in Hf.
  - rewrite Hf. exists (next_call s). destruct s; reflexivity.
  - exists (S (next_call s)).
    erewrite submit_resume_falsy; [|apply lookup_insert_eq|exact Hf].
    cbn. unfold set_suspended. cbn. f_equal.
    rewrite delete_insert_eq. apply delete_id.
    destruct (suspended s !! next_call s) as [x|] eqn:E; [|reflexivity].
    apply I in E. lia.
Qed.

End Submit.

Lemma show_calls_inv params this data w s w' :
  show params this data w = (ShowOpened s, w') → calls_inv s.
Proof.
  intros H. apply show_opened in H as (_ & _ & _ & Hs & _).
  intros c x. rewrite Hs, lookup_empty. discriminate.
Qed.

Lemma invoke_builtin_submit params ctx w0 w w' data s cmds V t :
  commands params = Some cmds →
  cmds !! "submit" = None →
  spread (events params) !! "submit" = None →
  show params (construct params ctx w0).1 data w = (ShowOpened s, w') →
  invoke params "submit" [V] (run params s t) = submit_call params V (run params s t).
Proof.
  intros Hc Hk He Hshow.
  destruct (registered_builtin params ctx w0 w w' data s cmds "submit" t Hc Hk He Hshow)
    as (srv & Hsrv & Hsub).
  unfold invoke. rewrite Hsrv, Hsub. reflexivity.
Qed.

(** C1, as the code has it. In a session that show opened on a
    descriptor with commands, none of whose commands or events is itself
    named submit, a remote submit(V) on which the declared
    validateSubmit hook yields a truthy value (at once or through its
    promise) resolves the promise with V, removes the disposal listener
    and disposes the panel, provided the promise is still pending when
    the validation completes: both when nothing happens in between and
    when other events arrive between the call and its continuation. *)
Theorem submit_validated_resolves
    (params : WebviewParams) (ctx : Host) (w0 w w' : World) (data V : value)
    (s : Session) (cmds : gmap string command) (hk : hook) (t : list event) :
  commands params = Some cmds →
  cmds !! "submit" = None →
  spread (events params) !! "submit" = None →
  validateSubmit params = Some hk →
  hook_truthy (hk V) = true →
  show params (construct params ctx w0).1 data w = (ShowOpened s, w') →
  let s1 := run params s t in
  (result s1 = Pending →
   result (submit_to_completion params V s1) = Resolved V
   ∧ panelDisposed (submit_to_completion params V s1) = true
   ∧ onDisposeActive (submit_to_completion params V s1) = false)
  ∧ ∃ call,
      (invoke params "submit" [V] s1).2 = Awaiting call
      ∧ ∀ t', Resume call ∉ t' →
          let s2 := run params (invoke params "submit" [V] s1).1 t' in
          result s2 = Pending →
          result (step params s2 (Resume call)) = Resolved V
          ∧ panelDisposed (step params s2 (Resume call)) = true
          ∧ onDisposeActive (step params s2 (Resume call)) = false.
Proof.
  intros Hc Hk He Hv Ht Hshow s1.
  pose proof (invoke_builtin_submit params ctx w0 w w' data s cmds V t Hc Hk He Hshow)
    as Hinv. fold s1 in Hinv.
  split.
  - intros Hp. unfold submit_to_completion. rewrite Hinv.
    exact (run_submit_truthy params hk V s1 Hv Ht Hp).
  - rewrite Hinv. destruct (submit_call_truthy params hk V s1 Hv Ht) as (v & Htv & ->).
    exists (next_call s1). split; [reflexivity|].
    intros t' Hnotin s2 Hp. cbn [step].
    assert (I1 : calls_inv s1).
    { apply run_calls. exact (show_calls_inv _ _ _ _ _ _ Hshow). }
    assert (I1' : calls_inv (set_suspended (<[next_call s1 := (V, Fulfilled v)]> (suspended s1))
                               (S (next_call s1)) s1)).
    { intros c x. cbn. intros H.
      apply lookup_insert_Some in H as [[<- _]|[_ H]]; [lia|]. apply I1 in H. lia. }
    apply (submit_resume_truthy (next_call s1) V v); [|exact Htv|exact Hp].
    apply (run_calls params t' _ I1'); [|exact Hnotin].
    cbn. apply lookup_insert_eq.
Qed.

(** The spec's scenario: submit("bad") is turned down, submit("ok")
    resolves the promise with "ok". *)
Lemma submit_validated_resolves_witness :
  let s1 := run Demo.w1_validated (Demo.opened Demo.w1_validated (VStr "boot"))
              [Invoke "submit" [VStr "bad"]] in
  result s1 = Pending
  ∧ result (submit_to_completion Demo.w1_validated (VStr "ok") s1) = Resolved (VStr "ok")
  ∧ panelDisposed (submit_to_completion Demo.w1_validated (VStr "ok") s1) = true
  ∧ onDisposeActive (submit_to_completion Demo.w1_validated (VStr "ok") s1) = false.
Proof.
  intros s1.
  assert (Hp : result s1 = Pending) by (vm_compute; reflexivity).
  split; [exact Hp|].
  refine (proj1 (submit_validated_resolves Demo.w1_validated Demo.bundled Demo.world0
                   Demo.world0
                   (show Demo.w1_validated
                      (construct Demo.w1_validated Demo.bundled Demo.world0).1
                      (VStr "boot") Demo.world0).2
                   (VStr "boot") (VStr "ok")
                   (Demo.opened Demo.w1_validated (VStr "boot"))
                   {[ "ping" := Demo.ping ]} Demo.is_ok
                   [Invoke "submit" [VStr "bad"]] _ _ _ _ _ _) Hp).
  - reflexivity.
  - vm_compute. reflexivity.
  - vm_compute. reflexivity.
  - reflexivity.
  - reflexivity.
  - reflexivity.
Defined.

(** A disposal that arrives while the hook's answer is awaited wins:
    the continuation of submit("ok") then finds the promise settled. *)
Example disposal_during_validation :
  result (run Demo.w1_validated (Demo.opened Demo.w1_validated (VStr "boot"))
            [Invoke "submit" [VStr "ok"]; PanelClosed; Resume 0])
  = Resolved VUndefined.
Proof. vm_compute. reflexivity. Qed.

(** C1 as worded fails: on the spec's descriptor w1, which declares
    commands but no validateSubmit hook, submit("ok") returns without
    suspending and leaves the promise pending. *)
Lemma submit_without_hook_stays_pending :
  invoke Demo.w1 "submit" [VStr "ok"] (Demo.opened Demo.w1 (VStr "boot"))
  = (Demo.opened Demo.w1 (VStr "boot"), Returned VUndefined)
  ∧ result (submit_to_completion Demo.w1 (VStr "ok") (Demo.opened Demo.w1 (VStr "boot")))
    = Pending
  ∧ ¬ submit_resolves_without_hook.
Proof.
  split; [vm_compute; reflexivity|]. split; [vm_compute; reflexivity|].
  intros H.
  assert (E := H Demo.w1 Demo.bundled Demo.world0 Demo.world0
                 (show Demo.w1 (construct Demo.w1 Demo.bundled Demo.world0).1
                    (VStr "boot") Demo.world0).2
                 (VStr "boot") (VStr "ok") (Demo.opened Demo.w1 (VStr "boot"))
                 ltac:(discriminate) eq_refl I).
  vm_compute in E. discriminate E.
Qed.

(** C4. In a session that show opened, whatever has happened so far,
    when submit runs on a value for which the declared validateSubmit
    hook resolves to a falsy value, the promise, the panel, the disposal
    listener and the registered protocol are as they were, and no call
    is left suspended; so on a session whose promise was pending the
    promise is still pending and the panel not disposed, a disposal
    afterwards resolves it with undefined and a later submit that the
    hook accepts resolves it with the value of that submit.  The same
    holds when the hook's answer arrives after other events: the
    continuation of a call whose validation fulfilled falsy changes
    none of them. *)
Theorem falsy_submit_keeps_session_open
    (params : WebviewParams) (this : Instance) (data V : value) (w w' : World)
    (s : Session) (hk : hook) (t : list event) :
  validateSubmit params = Some hk →
  hook_falsy (hk V) = true →
  show params this data w = (ShowOpened s, w') →
  let s1 := run params s t in
  let s2 := run_submit params V s1 in
  (result s2 = result s1 ∧ panelDisposed s2 = panelDisposed s1
   ∧ onDisposeActive s2 = onDisposeActive s1 ∧ server s2 = server s1
   ∧ suspended s2 = suspended s1)
  ∧ (result s1 = Pending →
     result s2 = Pending
     ∧ panelDisposed s2 = false
     ∧ result (step params s2 PanelClosed) = Resolved VUndefined
     ∧ ∀ V', hook_truthy (hk V') = true → result (run_submit params V' s2) = Resolved V')
  ∧ (∀ s' call v, suspended s' !! call = Some (V, Fulfilled v) → truthy v = false →
       let s'' := step params s' (Resume call) in
       result s'' = result s' ∧ panelDisposed s'' = panelDisposed s'
       ∧ onDisposeActive s'' = onDisposeActive s' ∧ server s'' = server s').
Proof.
  intros Hv Hf Hshow s1 s2.
  assert (I1 : calls_inv s1).
  { apply run_calls. exact (show_calls_inv _ _ _ _ _ _ Hshow). }
  assert (O1 : open_inv s1).
  { apply run_open_inv. exact (show_open_inv _ _ _ _ _ _ Hshow). }
  destruct (run_submit_falsy params hk V s1 Hv Hf I1) as (n & E).
  fold s2 in E.
  assert (F : result s2 = result s1 ∧ panelDisposed s2 = panelDisposed s1
              ∧ onDisposeActive s2 = onDisposeActive s1 ∧ server s2 = server s1
              ∧ suspended s2 = suspended s1).
  { rewrite E. repeat split. }
  split; [exact F|]. split.
  - intros Hp. destruct F as (Fr & Fd & Fa & _). destruct (O1 Hp) as [Hd Ha].
    assert (Hp2 : result s2 = Pending) by congruence.
    split; [exact Hp2|]. split; [congruence|]. split.
    + cbn [step]. apply panel_dispose_open; congruence.
    + intros V' Ht. exact (proj1 (run_submit_truthy params hk V' s2 Hv Ht Hp2)).
  - intros s' call v Hc Hfv s''. unfold s''. cbn [step].
    rewrite (submit_resume_falsy call V v s' Hc Hfv). repeat split.
Qed.

(** The spec's scenario: submit("bad") on the validated descriptor. *)
Lemma falsy_submit_keeps_session_open_witness :
  let s2 := run_submit Demo.w1_validated (VStr "bad")
              (Demo.opened Demo.w1_validated (VStr "boot")) in
  result s2 = Pending
  ∧ panelDisposed s2 = false
  ∧ result (step Demo.w1_validated s2 PanelClosed) = Resolved VUndefined
  ∧ result (run_submit Demo.w1_validated (VStr "ok") s2) = Resolved (VStr "ok").
Proof.
  intros s2.
  destruct (falsy_submit_keeps_session_open Demo.w1_validated
              (construct Demo.w1_validated Demo.bundled Demo.world0).1
              (VStr "boot") (VStr "bad") Demo.world0
              (show Demo.w1_validated
                 (construct Demo.w1_validated Demo.bundled Demo.world0).1
                 (VStr "boot") Demo.world0).2
              (Demo.opened Demo.w1_validated (VStr "boot")) Demo.is_ok []
              eq_refl eq_refl eq_refl) as (_ & H & _).
  destruct (H eq_refl) as (H1 & H2 & H3 & H4).
  split; [exact H1|]. split; [exact H2|]. split; [exact H3|].
  exact (H4 (VStr "ok") eq_refl).
Defined.

(* ===================================================================== *)
(* Further properties of the panel document                              *)
(* ===================================================================== *)

Section Tags.
Implicit Types (l : list string) (x acc s q n : string).

Lemma occurs_app_l n : ∀ s q, occurs n s = true → occurs n (s +:+ q) = true.
Proof.
  induction s as [|c s IH]; intros q H.
  - destruct n; [|discriminate]. apply occurs_prefix, prefix_nil.
  - rewrite append_cons, occurs_cons. rewrite occurs_cons in H.
    apply orb_true_iff in H as [H|H]; apply orb_true_iff.
    + left. rewrite <- append_cons. apply prefix_app, H.
    + right. apply IH, H.
Qed.

Lemma append_nil_r s : s +:+ EmptyString = s.
Proof. induction s as [|c s IH]; [reflexivity|]. rewrite append_cons, IH. reflexivity. Qed.

Lemma script_tags_acc l : ∀ acc,
  foldl (fun acc element =>
           acc +:+ "<script src=" +:+ dq +:+ element +:+ dq +:+ "></script>" +:+ nl +:+ nl)
        acc l
  = acc +:+ script_tags l.
Proof.
  unfold script_tags. induction l as [|x l IH]; intros acc; cbn [foldl].
  - rewrite append_nil_r. reflexivity.
  - rewrite IH, (IH (EmptyString +:+ _)), append_nil_l, append_assoc_r. reflexivity.
Qed.

Lemma stylesheet_tags_acc l : ∀ acc,
  foldl (fun acc element =>
           acc +:+ "<link rel=" +:+ dq +:+ "stylesheet" +:+ dq +:+ " href=" +:+ dq
               +:+ element +:+ dq +:+ ">" +:+ nl +:+ nl)
        acc l
  = acc +:+ stylesheet_tags l.
Proof.
  unfold stylesheet_tags. induction l as [|x l IH]; intros acc; cbn [foldl].
  - rewrite append_nil_r. reflexivity.
  - rewrite IH, (IH (EmptyString +:+ _)), append_nil_l, append_assoc_r. reflexivity.
Qed.

Lemma script_tags_cons x l :
  script_tags (x :: l)
  = ("<script src=" +:+ dq +:+ x +:+ dq +:+ "></script>" +:+ nl +:+ nl) +:+ script_tags l.
Proof.
  unfold script_tags at 1. cbn [foldl]. rewrite script_tags_acc, append_nil_l. reflexivity.
Qed.

Lemma stylesheet_tags_cons x l :
  stylesheet_tags (x :: l)
  = ("<link rel=" +:+ dq +:+ "stylesheet" +:+ dq +:+ " href=" +:+ dq +:+ x +:+ dq
       +:+ ">" +:+ nl +:+ nl) +:+ stylesheet_tags l.
Proof.
  unfold stylesheet_tags at 1. cbn [foldl].
  rewrite stylesheet_tags_acc, append_nil_l. reflexivity.
Qed.

Lemma script_tags_app l1 l2 :
  script_tags (l1 ++ l2) = script_tags l1 +:+ script_tags l2.
Proof.
  induction l1 as [|x l1 IH]; [reflexivity|].
  change ((x :: l1) ++ l2)%list with (x :: (l1 ++ l2))%list.
  rewrite !script_tags_cons, IH, !append_assoc_r. reflexivity.
Qed.

Lemma script_tags_in x l :
  x ∈ l → occurs ("<script src=" +:+ dq +:+ x +:+ dq +:+ "></script>") (script_tags l) = true.
Proof.
  intros Hx. induction l as [|y l IH]; [inversion Hx|].
  rewrite script_tags_cons. apply elem_of_cons in Hx as [->|Hx].
  - apply occurs_app_l, occurs_prefix.
    do 3 apply prefix_app_same. apply prefix_app_same with (n := "></script>").
    reflexivity.
  - apply occurs_app_r, IH, Hx.
Qed.

Lemma stylesheet_tags_app l1 l2 :
  stylesheet_tags (l1 ++ l2) = stylesheet_tags l1 +:+ stylesheet_tags l2.
Proof.
  induction l1 as [|x l1 IH]; [reflexivity|].
  change ((x :: l1) ++ l2)%list with (x :: (l1 ++ l2))%list.
  rewrite !stylesheet_tags_cons, IH, !append_assoc_r. reflexivity.
Qed.

Lemma stylesheet_tags_in x l :
  x ∈ l →
  occurs ("<link rel=" +:+ dq +:+ "stylesheet" +:+ dq +:+ " href=" +:+ dq +:+ x
            +:+ dq +:+ ">") (stylesheet_tags l) = true.
Proof.
  intros Hx. induction l as [|y l IH]; [inversion Hx|].
  rewrite stylesheet_tags_cons. apply elem_of_cons in Hx as [->|Hx].
  - apply occurs_app_l, occurs_prefix.
    do 7 apply prefix_app_same. apply prefix_app_same with (n := ">").
    reflexivity.
  - apply occurs_app_r, IH, Hx.
Qed.

End Tags.

(** X1. The script block built from the lib resources has no text for
    an empty list, is the concatenation of the blocks of the parts of a
    list, in order, and holds for every resource of the list its own
    script element addressing exactly that resource. *)
Theorem script_tags_each (l1 l2 : list string) :
  script_tags [] = EmptyString
  ∧ script_tags (l1 ++ l2) = script_tags l1 +:+ script_tags l2
  ∧ ∀ x, x ∈ l1 →
      occurs ("<script src=" +:+ dq +:+ x +:+ dq +:+ "></script>") (script_tags l1) = true.
Proof.
  split; [reflexivity|]. split; [apply script_tags_app|].
  intros x Hx. apply script_tags_in, Hx.
Qed.

(** X2. The stylesheet block built from the css resources has no text
    for an empty list, is the concatenation of the blocks of the parts
    of a list, in order, and holds for every resource of the list its
    own link element addressing exactly that resource. *)
Theorem stylesheet_tags_each (l1 l2 : list string) :
  stylesheet_tags [] = EmptyString
  ∧ stylesheet_tags (l1 ++ l2) = stylesheet_tags l1 +:+ stylesheet_tags l2
  ∧ ∀ x, x ∈ l1 →
      occurs ("<link rel=" +:+ dq +:+ "stylesheet" +:+ dq +:+ " href=" +:+ dq +:+ x
                +:+ dq +:+ ">") (stylesheet_tags l1) = true.
Proof.
  split; [reflexivity|]. split; [apply stylesheet_tags_app|].
  intros x Hx. apply stylesheet_tags_in, Hx.
Qed.

Section Fragments.
Variables (h : Host).

Lemma resolve_params_fragments (params : HtmlParams) :
  r_scripts (resolve_params h params) = scripts params
  ∧ r_stylesheets (resolve_params h params) = stylesheets params
  ∧ r_webviewJs (resolve_params h params) = html_webviewJs params.
Proof. unfold resolve_params. destruct (local_server h); repeat split. Qed.

Lemma render_scripts_in n r :
  occurs n (r_scripts r) = true → occurs n (render h r) = true.
Proof.
  intros H. rewrite render_quasis. do 9 apply occurs_app_r. apply occurs_app_l, H.
Qed.

Lemma render_stylesheets_in n r :
  occurs n (r_stylesheets r) = true → occurs n (render h r) = true.
Proof.
  intros H. rewrite render_quasis. do 11 apply occurs_app_r. apply occurs_app_l, H.
Qed.

End Fragments.

(** X3. The document of the panel that createVueWebview builds holds a
    script element for every resource the host lists for the libs
    (vue.min.js and the descriptor's libFiles) and for loadVsCodeApi.js,
    and a link element for every resource it lists for the descriptor's
    cssFiles; this in either mode of the dev-server variable.  With
    the variable unset its main script element addresses webviewJs
    under the dist directory of the extension through asWebviewUri. *)
Theorem panel_document_dependencies (params : WebviewParams) (ctx : Host) :
  let libsPath := path_join ctx [extensionPath ctx; "media"; "libs"] in
  let jsPath := path_join ctx [extensionPath ctx; "media"; "js"] in
  let cssPath := path_join ctx [extensionPath ctx; "media"; "css"] in
  let webviewPath := path_join ctx [extensionPath ctx; "dist"] in
  let doc := html (createVueWebview params ctx) in
  (∀ x, x ∈ getFilesAsVsCodeResources ctx libsPath
              ("vue.min.js" :: default [] (libFiles params))
        ∨ x ∈ getFilesAsVsCodeResources ctx jsPath ["loadVsCodeApi.js"] →
        occurs ("<script src=" +:+ dq +:+ x +:+ dq +:+ "></script>") doc = true)
  ∧ (∀ x, x ∈ getFilesAsVsCodeResources ctx cssPath (default [] (cssFiles params)) →
          occurs ("<link rel=" +:+ dq +:+ "stylesheet" +:+ dq +:+ " href=" +:+ dq +:+ x
                    +:+ dq +:+ ">") doc = true)
  ∧ (local_server ctx = None →
     occurs ("<script src=" +:+ dq
               +:+ Uri_toString ctx
                     (asWebviewUri ctx
                        (Uri_file ctx (path_join ctx [webviewPath; webviewJs params])))
               +:+ dq +:+ "></script>") doc = true).
Proof.
  intros libsPath jsPath cssPath webviewPath doc.
  unfold doc, createVueWebview. cbn [html]. unfold resolveWebviewHtml.
  fold libsPath jsPath cssPath webviewPath.
  split; [|split].
  - intros x Hx. apply render_scripts_in.
    match goal with |- context [resolve_params ctx ?p] =>
      destruct (resolve_params_fragments ctx p) as (-> & _) end.
    cbn [scripts]. apply script_tags_in, elem_of_app. exact Hx.
  - intros x Hx. apply render_stylesheets_in.
    match goal with |- context [resolve_params ctx ?p] =>
      destruct (resolve_params_fragments ctx p) as (_ & -> & _) end.
    cbn [stylesheets]. apply stylesheet_tags_in. exact Hx.
  - intros Hl.
    match goal with |- context [resolve_params ctx ?p] =>
      pose proof (bundled_document_holds ctx p Hl) as B end.
    unfold bundled_document, resolveWebviewHtml in B. cbn [main] in B.
    exact (proj1 (proj2 (proj2 (proj2 (proj2 (proj2 (proj2 (proj2 B)))))))).
Qed.

Lemma script_tags_each_witness :
  script_tags (["a.js"] ++ ["b.js"]) = script_tags ["a.js"] +:+ script_tags ["b.js"]
  ∧ occurs ("<script src=" +:+ dq +:+ "b.js" +:+ dq +:+ "></script>")
      (script_tags ["a.js"; "b.js"]) = true.
Proof.
  split.
  - exact (proj1 (proj2 (script_tags_each ["a.js"] ["b.js"]))).
  - apply (proj2 (proj2 (script_tags_each ["a.js"; "b.js"] []))).
    apply elem_of_cons. right. apply elem_of_cons. left. reflexivity.
Defined.

Lemma stylesheet_tags_each_witness :
  stylesheet_tags ([] ++ ["base.css"]) = stylesheet_tags [] +:+ stylesheet_tags ["base.css"]
  ∧ occurs ("<link rel=" +:+ dq +:+ "stylesheet" +:+ dq +:+ " href=" +:+ dq +:+ "base.css"
              +:+ dq +:+ ">") (stylesheet_tags ["base.css"]) = true.
Proof.
  split.
  - exact (proj1 (proj2 (stylesheet_tags_each [] ["base.css"]))).
  - apply (proj2 (proj2 (stylesheet_tags_each ["base.css"] []))).
    apply elem_of_cons. left. reflexivity.
Defined.

(** The panel of the spec's descriptor on the bundled host. *)
Lemma panel_document_dependencies_witness :
  occurs ("<script src=" +:+ dq +:+ "vscode-resource:///ext/media/libs/vue.min.js" +:+ dq
            +:+ "></script>") (html (createVueWebview Demo.w1 Demo.bundled)) = true
  ∧ occurs ("<script src=" +:+ dq +:+ "vscode-resource:///ext/dist/main.js" +:+ dq
              +:+ "></script>") (html (createVueWebview Demo.w1 Demo.bundled)) = true.
Proof.
  destruct (panel_document_dependencies Demo.w1 Demo.bundled) as (H1 & _ & H3).
  split.
  - apply H1. left. apply elem_of_cons. left. reflexivity.
  - apply H3. reflexivity.
Defined.

(** X4. Whatever the mode and whatever the caller supplies, the
    generated document starts with the html opening tag, ends with the
    html closing tag, denies everything by default (default-src 'none'),
    allows fonts from 'self' and data: only, and has the vue-app mount
    point. *)
Theorem document_fixed_parts (h : Host) (params : HtmlParams) :
  let doc := resolveWebviewHtml h params in
  String.prefix "<html>" doc = true
  ∧ (∃ pre, doc = pre +:+ "</html>")
  ∧ occurs ("content=" +:+ nl +:+ "                " +:+ dq +:+ "default-src 'none';") doc
    = true
  ∧ occurs ("font-src 'self' data:;" +:+ dq) doc = true
  ∧ occurs ("<div id=" +:+ dq +:+ "vue-app" +:+ dq +:+ "></div>") doc = true.
Proof.
  intros doc. unfold doc, resolveWebviewHtml. rewrite render_quasis.
  set (r := resolve_params h params).
  split; [apply prefix_app; reflexivity|]. split.
  { exists (quasi0 +:+ r_connectSource r +:+ quasi1 +:+ r_cspSource r +:+ quasi2
            +:+ r_cspSource r +:+ quasi3 +:+ r_cspSource r +:+ quasi4 +:+ r_scripts r
            +:+ quasi5 +:+ r_stylesheets r +:+ quasi6 +:+ Uri_toString h (r_main r)
            +:+ dq +:+ "></script>" +:+ nl +:+ "    </body>" +:+ nl).
    rewrite !append_assoc_r. reflexivity. }
  split; [apply occurs_app_l; reflexivity|].
  split; do 8 apply occurs_app_r; apply occurs_app_l; reflexivity.
Qed.

(** X5. The token ws: is in every document generated against a dev
    server; without one (variable unset or empty) it is there exactly
    when a fragment supplied by the caller has it. *)
Theorem document_ws (h : Host) (params : HtmlParams) :
  occurs ws (resolveWebviewHtml h params) =
    match local_server h with
    | Some _ => true
    | None =>
        occurs ws (cspSource params) || occurs ws (scripts params)
        || occurs ws (stylesheets params) || occurs ws (Uri_toString h (main params))
    end.
Proof.
  unfold resolveWebviewHtml. rewrite render_ws. unfold resolve_params.
  destruct (local_server h) as [url|]; reflexivity.
Qed.

(* ===================================================================== *)
(* Further properties of sessions                                        *)
(* ===================================================================== *)

Section Lifecycle.
Variable params : WebviewParams.
Implicit Types (s : Session).

Lemma lifecycle_closed_by_dispose s : lifecycle s → lifecycle (panel_dispose s).
Proof.
  intros [(Hp & Hd & Ha)|(v & Hv & Hd)]; right.
  - exists VUndefined. split; [apply panel_dispose_open; assumption|].
    apply panel_dispose_disposed.
  - exists v. split; [apply panel_dispose_settled, Hv|apply panel_dispose_disposed].
Qed.

Lemma lifecycle_same s s' :
  result s' = result s → panelDisposed s' = panelDisposed s →
  onDisposeActive s' = onDisposeActive s → lifecycle s → lifecycle s'.
Proof. unfold lifecycle. intros -> -> ->. auto. Qed.

Lemma lifecycle_closed_by_submit V s :
  lifecycle s → lifecycle (resolve V (panel_dispose (onDispose_dispose s))).
Proof.
  intros [(Hp & _)|(v & Hv & _)]; right.
  - exists V. destruct (submit_tail_resolves V s Hp) as (H1 & H2 & _). auto.
  - exists v. split; [apply submit_tail_settled, Hv|].
    destruct (resolve_frame V (panel_dispose (onDispose_dispose s))) as (-> & _).
    apply panel_dispose_disposed.
Qed.

Lemma step_lifecycle e s : lifecycle s → lifecycle (step params s e).
Proof.
  intros L. destruct e as [|k args|call]; cbn [step].
  - apply lifecycle_closed_by_dispose, L.
  - unfold invoke. destruct (server s) as [srv|]; [|exact L].
    destruct (ws_protocol srv !! k) as [[d| |c|e]|]; try exact L.
    + destruct (submit_call_frame params (arg0 args) s) as (H1 & H2 & H3 & _).
      exact (lifecycle_same s _ H1 H2 H3 L).
    + cbn [fst]. destruct (cmd_disposes (c args)); [|exact L].
      apply lifecycle_closed_by_dispose, L.
  - unfold submit_resume. destruct (suspended s !! call) as [[V [v|e|]]|]; try exact L.
    destruct (truthy v); cbn [fst]; [|exact L].
    apply lifecycle_closed_by_submit. exact L.
Qed.

Lemma run_lifecycle t : ∀ s, lifecycle s → lifecycle (run params s t).
Proof.
  induction t as [|e t IH]; intros s L; [exact L|].
  apply (IH (step params s e)), step_lifecycle, L.
Qed.

End Lifecycle.

(** X6. Between any two events of a session that show opened, the
    promise is pending exactly when the panel has not been disposed, a
    pending promise has its disposal listener registered, and a disposed
    panel stays disposed: the session is either open or closed for
    good. *)
Theorem session_lifecycle
    (params : WebviewParams) (this : Instance) (data : value) (w w' : World)
    (s : Session) (t : list event) (e : event) :
  show params this data w = (ShowOpened s, w') →
  let st := run params s t in
  (result st = Pending ↔ panelDisposed st = false)
  ∧ (result st = Pending → onDisposeActive st = true)
  ∧ (panelDisposed st = true → panelDisposed (step params st e) = true).
Proof.
  intros Hshow st.
  assert (L0 : lifecycle s).
  { apply show_opened in Hshow as (? & ? & ? & _). left. auto. }
  pose proof (run_lifecycle params t s L0) as L. fold st in L.
  pose proof (step_lifecycle params e st L) as L'.
  split; [|split].
  - destruct L as [(Hp & Hd & _)|(v & Hv & Hd)]; split; congruence.
  - destruct L as [(_ & _ & Ha)|(v & Hv & _)]; [auto|congruence].
  - intros Hd. destruct L as [(_ & Hd' & _)|(v & Hv & _)]; [congruence|].
    destruct L' as [(Hp' & _)|(_ & _ & Hd')]; [|exact Hd'].
    rewrite (step_settled params e v st Hv) in Hp'. discriminate.
Qed.

Lemma session_lifecycle_witness :
  let st := run Demo.w1_validated (Demo.opened Demo.w1_validated (VStr "boot"))
              [Invoke "submit" [VStr "ok"]; Resume 0] in
  panelDisposed st = true
  ∧ panelDisposed (step Demo.w1_validated st (Invoke "submit" [VStr "ok"])) = true.
Proof.
  intros st.
  assert (Hd : panelDisposed st = true) by (vm_compute; reflexivity).
  split; [exact Hd|].
  exact (proj2 (proj2 (session_lifecycle Demo.w1_validated
                         (construct Demo.w1_validated Demo.bundled Demo.world0).1
                         (VStr "boot") Demo.world0
                         (show Demo.w1_validated
                            (construct Demo.w1_validated Demo.bundled Demo.world0).1
                            (VStr "boot") Demo.world0).2
                         (Demo.opened Demo.w1_validated (VStr "boot"))
                         [Invoke "submit" [VStr "ok"]; Resume 0]
                         (Invoke "submit" [VStr "ok"]) eq_refl)) Hd).
Defined.

Section Accepted.
Variable params : WebviewParams.
Implicit Types (s : Session) (V v : value).

Lemma panel_dispose_result_cases s :
  result (panel_dispose s) = result s ∨ result (panel_dispose s) = Resolved VUndefined.
Proof.
  unfold panel_dispose. destruct (panelDisposed s); [left; reflexivity|].
  destruct (onDisposeActive (set_panelDisposed true s)); [|left; reflexivity].
  destruct (result s) as [|v] eqn:E.
  - right. apply resolve_pending. exact E.
  - left. rewrite (resolve_settled v); exact E.
Qed.

Lemma submit_tail_result_cases V s :
  result (resolve V (panel_dispose (onDispose_dispose s))) = Resolved V
  ∨ result (resolve V (panel_dispose (onDispose_dispose s))) = result s.
Proof.
  destruct (result s) as [|v] eqn:E.
  - left. exact (proj1 (submit_tail_resolves V s E)).
  - right. apply submit_tail_settled, E.
Qed.

Lemma validated_by_dispose s : validated params s → validated params (panel_dispose s).
Proof.
  intros [Hr Hs]. split.
  - intros v Hv. destruct (panel_dispose_result_cases s) as [E|E]; rewrite E in Hv.
    + apply Hr, Hv.
    + left. congruence.
  - unfold suspended_accepted.
    destruct (panel_dispose_frame s) as (_ & _ & -> & _). exact Hs.
Qed.

Lemma validated_by_submit_call V s : validated params s → validated params (submit_call params V s).1.
Proof.
  intros [Hr Hs]. split.
  - destruct (submit_call_frame params V s) as (-> & _). exact Hr.
  - unfold suspended_accepted, submit_call.
    destruct (validateSubmit params) as [hk|] eqn:Hk; [|exact Hs].
    assert (Hnew : ∀ p, (∀ u, p = Fulfilled u → truthy u = true → hook_truthy (hk V) = true) →
              ∀ call V' u,
                <[next_call s := (V, p)]> (suspended s) !! call = Some (V', Fulfilled u) →
                truthy u = true → accepted params V' = true).
    { intros p Hp call V' u Hl Hu.
      apply lookup_insert_Some in Hl as [[_ Heq]|[_ Hl]]; [|exact (Hs _ _ _ Hl Hu)].
      injection Heq as <- ->. unfold accepted. rewrite Hk. exact (Hp u eq_refl Hu). }
    destruct (hk V) as [v|p|e] eqn:Hv; [destruct (truthy v) eqn:Htv| |]; try exact Hs.
    + cbn. apply Hnew. intros u [= <-] _. exact Htv.
    + cbn. apply Hnew. intros u -> Hu. exact Hu.
Qed.

Lemma validated_by_resume call s : validated params s → validated params (submit_resume call s).1.
Proof.
  intros [Hr Hs].
  assert (Hdel : suspended_accepted params
                   (set_suspended (delete call (suspended s)) (next_call s) s)).
  { intros c V u Hl. cbn in Hl. apply lookup_delete_Some in Hl as [_ Hl]. exact (Hs _ _ _ Hl). }
  unfold submit_resume. destruct (suspended s !! call) as [[V [v|e|]]|] eqn:E;
    try (split; assumption).
  destruct (truthy v) eqn:Hv; cbn [fst]; [|split; assumption].
  split.
  - intros u Hu.
    destruct (submit_tail_result_cases V
                (set_suspended (delete call (suspended s)) (next_call s) s)) as [R|R];
      rewrite R in Hu.
    + injection Hu as <-. right. exact (Hs _ _ _ E Hv).
    + apply Hr, Hu.
  - unfold suspended_accepted.
    destruct (submit_tail_frame V
                (set_suspended (delete call (suspended s)) (next_call s) s)) as (_ & -> & _).
    exact Hdel.
Qed.

Lemma validated_step e s : validated params s → validated params (step params s e).
Proof.
  intros Hv. destruct e as [|k args|call]; cbn [step].
  - apply validated_by_dispose, Hv.
  - unfold invoke. destruct (server s) as [srv|]; [|exact Hv].
    destruct (ws_protocol srv !! k) as [[d| |c|e]|]; try exact Hv.
    + apply validated_by_submit_call, Hv.
    + cbn [fst]. destruct (cmd_disposes (c args)); [|exact Hv].
      apply validated_by_dispose, Hv.
  - apply validated_by_resume, Hv.
Qed.

Lemma validated_run t : ∀ s, validated params s → validated params (run params s t).
Proof.
  induction t as [|e t IH]; intros s Hv; [exact Hv|].
  apply (IH (step params s e)), validated_step, Hv.
Qed.

Lemma validated_resolution this data w w' s t v :
  show params this data w = (ShowOpened s, w') →
  result (run params s t) = Resolved v →
  v = VUndefined ∨ accepted params v = true.
Proof.
  intros Hshow. apply (validated_run t s).
  apply show_opened in Hshow as (Hp & _ & _ & Hsus & _). split.
  - intros u Hu. congruence.
  - intros c V u Hl. rewrite Hsus, lookup_empty in Hl. discriminate.
Qed.

End Accepted.

(** X7. Whatever events a session that show opened goes through, its
    promise only ever resolves with undefined or with a value to which
    the declared validateSubmit hook answered truthy; on a descriptor
    without that hook it only ever resolves with undefined. *)
Theorem only_accepted_values_resolve
    (params : WebviewParams) (this : Instance) (data v : value) (w w' : World)
    (s : Session) (t : list event) :
  show params this data w = (ShowOpened s, w') →
  result (run params s t) = Resolved v →
  (v = VUndefined ∨ accepted params v = true)
  ∧ (validateSubmit params = None → v = VUndefined).
Proof.
  intros Hshow Hv.
  pose proof (validated_resolution params this data w w' s t v Hshow Hv) as H.
  split; [exact H|].
  intros Hnone. destruct H as [H|H]; [exact H|].
  unfold accepted in H. rewrite Hnone in H. discriminate.
Qed.

(** The spec's scenario: "bad" is turned down, "ok" resolves. *)
Lemma only_accepted_values_resolve_witness :
  result (run Demo.w1_validated (Demo.opened Demo.w1_validated (VStr "boot"))
            [Invoke "submit" [VStr "bad"]; Invoke "submit" [VStr "ok"]; Resume 0])
  = Resolved (VStr "ok")
  ∧ accepted Demo.w1_validated (VStr "ok") = true
  ∧ accepted Demo.w1_validated (VStr "bad") = false.
Proof.
  assert (R : result (run Demo.w1_validated (Demo.opened Demo.w1_validated (VStr "boot"))
                        [Invoke "submit" [VStr "bad"]; Invoke "submit" [VStr "ok"]; Resume 0])
              = Resolved (VStr "ok")) by (vm_compute; reflexivity).
  split; [exact R|]. split; [|reflexivity].
  destruct (proj1 (only_accepted_values_resolve Demo.w1_validated
                     (construct Demo.w1_validated Demo.bundled Demo.world0).1
                     (VStr "boot") (VStr "ok") Demo.world0
                     (show Demo.w1_validated
                        (construct Demo.w1_validated Demo.bundled Demo.world0).1
                        (VStr "boot") Demo.world0).2
                     (Demo.opened Demo.w1_validated (VStr "boot"))
                     [Invoke "submit" [VStr "bad"]; Invoke "submit" [VStr "ok"]; Resume 0]
                     eq_refl R)) as [H|H]; [discriminate H|exact H].
Defined.

Section Registered.
Variables (params : WebviewParams) (this : Instance) (data : value).
Implicit Types (s : Session) (t : list event).

(** What show hands to the messaging layer, at any point of the
    session. *)
Lemma registered_server w w' s cmds t :
  commands params = Some cmds →
  show params this data w = (ShowOpened s, w') →
  server (run params s t)
  = Some {| ws_emitters := emitters this; ws_arguments := data;
            ws_protocol := live_protocol cmds (emitters this) data |}.
Proof.
  intros Hc Hshow. rewrite run_server.
  apply show_opened in Hshow as (_ & _ & _ & _ & _ & _ & _ & Hsrv).
  rewrite Hc in Hsrv. exact Hsrv.
Qed.

Lemma live_protocol_dom cmds ems :
  dom (live_protocol cmds ems data) = {["submit"; "init"]} ∪ dom cmds ∪ dom ems.
Proof.
  unfold live_protocol, merge_over.
  rewrite !dom_union_L, !dom_fmap_L, !dom_insert_L, dom_empty_L. set_solver.
Qed.

Lemma run_submit_settled V v s :
  result s = Resolved v → result (run_submit params V s) = Resolved v.
Proof.
  intros H. unfold run_submit.
  destruct (submit_call params V s) as [s1 r] eqn:E.
  assert (H1 : result s1 = Resolved v).
  { replace s1 with (submit_call params V s).1 by (rewrite E; reflexivity).
    destruct (submit_call_frame params V s) as (-> & _). exact H. }
  destruct r; try exact H1. apply submit_resume_settled, H1.
Qed.

End Registered.

(** X8. When the declared validateSubmit hook throws on the submitted
    value, or hands back a promise that rejects, the submit call fails
    towards its caller with that very error, and the session is as it
    was: same promise state, panel, listener and suspended calls. *)
Theorem submit_hook_failure
    (params : WebviewParams) (this : Instance) (data V e : value) (w w' : World)
    (s : Session) (hk : hook) (t : list event) :
  validateSubmit params = Some hk →
  hook_fails_with (hk V) e →
  show params this data w = (ShowOpened s, w') →
  let s1 := run params s t in
  submit_reply params V s1 = Failed e
  ∧ result (run_submit params V s1) = result s1
  ∧ panelDisposed (run_submit params V s1) = panelDisposed s1
  ∧ onDisposeActive (run_submit params V s1) = onDisposeActive s1
  ∧ suspended (run_submit params V s1) = suspended s1.
Proof.
  intros Hk Hf Hshow s1.
  assert (I1 : calls_inv s1).
  { apply run_calls. exact (show_calls_inv _ _ _ _ _ _ Hshow). }
  unfold submit_reply, run_submit, submit_call. rewrite Hk.
  destruct Hf as [-> | ->]; [repeat split|].
  unfold submit_resume. cbn [suspended set_suspended].
  rewrite lookup_insert_eq. cbn.
  repeat split. rewrite delete_insert_eq. apply delete_id.
  destruct (suspended s1 !! next_call s1) as [x|] eqn:E; [|reflexivity].
  apply I1 in E. lia.
Qed.

Lemma submit_hook_failure_witness :
  submit_reply Demo.w_failing (VStr "ok") (Demo.opened Demo.w_failing VNull)
  = Failed (VStr "no")
  ∧ result (run_submit Demo.w_failing (VStr "ok") (Demo.opened Demo.w_failing VNull))
    = Pending.
Proof.
  destruct (submit_hook_failure Demo.w_failing
              (construct Demo.w_failing Demo.bundled Demo.world0).1
              VNull (VStr "ok") (VStr "no") Demo.world0
              (show Demo.w_failing (construct Demo.w_failing Demo.bundled Demo.world0).1
                 VNull Demo.world0).2
              (Demo.opened Demo.w_failing VNull) _ [] eq_refl
              (or_intror eq_refl) eq_refl) as (H1 & H2 & _).
  split; [exact H1|exact H2].
Defined.

(** X9. A remote call of a descriptor command that no event of the
    same name shadows runs that command, even under the names init and
    submit, and answers with what the command returns.  A command that
    does not dispose leaves the session as it is; one that calls the
    dispose of the server object closes a pending session like the
    host's own disposal: the panel is disposed and the promise resolves
    with undefined. *)
Theorem descriptor_command_call
    (params : WebviewParams) (this : Instance) (data : value) (w w' : World)
    (s : Session) (cmds : gmap string command) (c : command) (k : string)
    (args : list value) (t : list event) :
  commands params = Some cmds →
  cmds !! k = Some c →
  emitters this !! k = None →
  show params this data w = (ShowOpened s, w') →
  let st := run params s t in
  (invoke params k args st).2 = Returned (cmd_ret (c args))
  ∧ (cmd_disposes (c args) = false → (invoke params k args st).1 = st)
  ∧ (cmd_disposes (c args) = true → result st = Pending →
     result (invoke params k args st).1 = Resolved VUndefined
     ∧ panelDisposed (invoke params k args st).1 = true).
Proof.
  intros Hc Hk He Hshow st.
  pose proof (registered_server params this data w w' s cmds t Hc Hshow) as Hsrv.
  fold st in Hsrv.
  assert (E : invoke params k args st
              = (if cmd_disposes (c args) then panel_dispose st else st,
                 Returned (cmd_ret (c args)))).
  { unfold invoke. rewrite Hsrv. cbn [ws_protocol].
    rewrite live_protocol_lookup, He, Hk. reflexivity. }
  rewrite E. cbn [fst snd]. split; [reflexivity|]. split.
  - intros ->. reflexivity.
  - intros -> Hp.
    pose proof (run_open_inv params t s (show_open_inv params this data w s w' Hshow)) as I.
    destruct (I Hp) as [Hd Ha].
    split; [apply panel_dispose_open; assumption|apply panel_dispose_disposed].
Qed.

Lemma descriptor_command_call_witness :
  invoke Demo.w_cancel "cancel" [] (Demo.opened Demo.w_cancel VNull)
  = (panel_dispose (Demo.opened Demo.w_cancel VNull), Returned VNull)
  ∧ result (invoke Demo.w_cancel "cancel" [] (Demo.opened Demo.w_cancel VNull)).1
    = Resolved VUndefined.
Proof.
  destruct (descriptor_command_call Demo.w_cancel
              (construct Demo.w_cancel Demo.bundled Demo.world0).1 VNull Demo.world0
              (show Demo.w_cancel (construct Demo.w_cancel Demo.bundled Demo.world0).1
                 VNull Demo.world0).2
              (Demo.opened Demo.w_cancel VNull) {[ "cancel" := Demo.cancel ]}
              Demo.cancel "cancel" [] []
              eq_refl eq_refl eq_refl eq_refl) as (_ & _ & H).
  split; [vm_compute; reflexivity|].
  exact (proj1 (H eq_refl eq_refl)).
Defined.

(** X10. The object show registers with the messaging layer stays the
    same for the whole session.  It carries the initial data as
    arguments and the emitters of the instance, and its protocol has
    exactly the keys init, submit, the descriptor's commands and the
    instance's emitters: under a key an emitter wins over a command of
    that name, and either wins over the built-in init and submit. *)
Theorem registered_protocol_merge
    (params : WebviewParams) (this : Instance) (data : value) (w w' : World)
    (s : Session) (cmds : gmap string command) (t : list event) :
  commands params = Some cmds →
  show params this data w = (ShowOpened s, w') →
  ∃ srv,
    server (run params s t) = Some srv
    ∧ ws_arguments srv = data
    ∧ ws_emitters srv = emitters this
    ∧ dom (ws_protocol srv) = {["submit"; "init"]} ∪ dom cmds ∪ dom (emitters this)
    ∧ ∀ k, ws_protocol srv !! k =
           match emitters this !! k with
           | Some e => Some (HEmitter e)
           | None =>
               match cmds !! k with
               | Some c => Some (HCommand c)
               | None =>
                   if decide (k = "submit") then Some HSubmit
                   else if decide (k = "init") then Some (HInit data)
                   else None
               end
           end.
Proof.
  intros Hc Hshow. eexists. split.
  - exact (registered_server params this data w w' s cmds t Hc Hshow).
  - cbn. split; [reflexivity|]. split; [reflexivity|].
    split; [apply live_protocol_dom|]. intros k. apply live_protocol_lookup.
Qed.

Lemma registered_protocol_merge_witness :
  ∃ srv, server (Demo.opened Demo.w_both VNull) = Some srv
         ∧ ws_protocol srv !! "onSave" = Some (HEmitter 2)
         ∧ ws_protocol srv !! "ping" = Some (HCommand Demo.ping)
         ∧ ws_protocol srv !! "submit" = Some HSubmit.
Proof.
  destruct (registered_protocol_merge Demo.w_both
              (construct Demo.w_both Demo.bundled Demo.world0).1 VNull Demo.world0
              (show Demo.w_both (construct Demo.w_both Demo.bundled Demo.world0).1
                 VNull Demo.world0).2
              (Demo.opened Demo.w_both VNull) {[ "ping" := Demo.ping ]} []
              eq_refl eq_refl) as (srv & Hsrv & _ & _ & _ & Hl).
  exists srv. split; [exact Hsrv|].
  rewrite !Hl. repeat split.
Defined.

(** X11. Sessions that show opens on one instance, whatever their data
    and whenever they are opened, register under every event key the
    same emitter, that of the instance; a session of an instance
    constructed later registers a different emitter under the keys it
    has. *)
Theorem sessions_share_instance_emitters
    (params : WebviewParams) (ctx ctx' : Host) (w0 w1 w1' w2 w2' w3 w3' : World)
    (d : nat) (ps : list Panel) (data1 data2 data3 : value) (s1 s2 s3 : Session)
    (cmds : gmap string command) (t1 t2 t3 : list event) (k : string) (e : emitter) :
  let this := (construct params ctx w0).1 in
  let later := {| next_emitter := next_emitter (construct params ctx w0).2 + d;
                  panels := ps |} in
  let other := (construct params ctx' later).1 in
  commands params = Some cmds →
  emitters this !! k = Some e →
  show params this data1 w1 = (ShowOpened s1, w1') →
  show params this data2 w2 = (ShowOpened s2, w2') →
  show params other data3 w3 = (ShowOpened s3, w3') →
  ∃ srv1 srv2 srv3 e',
    server (run params s1 t1) = Some srv1
    ∧ server (run params s2 t2) = Some srv2
    ∧ server (run params s3 t3) = Some srv3
    ∧ ws_protocol srv1 !! k = Some (HEmitter e)
    ∧ ws_protocol srv2 !! k = Some (HEmitter e)
    ∧ ws_protocol srv3 !! k = Some (HEmitter e')
    ∧ e' ≠ e.
Proof.
  intros this later other Hc He H1 H2 H3.
  assert (He' : ∃ e', emitters other !! k = Some e' ∧ e' ≠ e).
  { apply construct_emitters_lookup in He as (Hne & i & Hi & ->).
    exists (next_emitter later + i). split.
    - apply construct_emitters_lookup. split; [exact Hne|].
      exists i. split; [exact Hi|reflexivity].
    - apply lookup_lt_Some in Hi. rewrite event_keys_length in Hi.
      unfold later. cbn [next_emitter]. rewrite construct_next. lia. }
  destruct He' as (e' & He' & Hne).
  do 3 eexists. exists e'.
  split; [exact (registered_server params this data1 w1 w1' s1 cmds t1 Hc H1)|].
  split; [exact (registered_server params this data2 w2 w2' s2 cmds t2 Hc H2)|].
  split; [exact (registered_server params other data3 w3 w3' s3 cmds t3 Hc H3)|].
  cbn [ws_protocol]. rewrite !live_protocol_lookup, He, He'.
  repeat split. exact Hne.
Qed.

Lemma sessions_share_instance_emitters_witness :
  ∃ srv1 srv2 srv3 e',
    server (Demo.opened Demo.w_both VNull) = Some srv1
    ∧ server (run Demo.w_both (Demo.opened Demo.w_both (VStr "again")) [PanelClosed])
      = Some srv2
    ∧ server (run Demo.w_both
                match (show Demo.w_both
                         (construct Demo.w_both Demo.bundled
                            {| next_emitter := 3; panels := [] |}).1
                         VNull Demo.world0).1 with
                | ShowOpened s => s
                | _ => Demo.opened Demo.w_both VNull
                end []) = Some srv3
    ∧ ws_protocol srv1 !! "onSave" = Some (HEmitter 2)
    ∧ ws_protocol srv2 !! "onSave" = Some (HEmitter 2)
    ∧ ws_protocol srv3 !! "onSave" = Some (HEmitter e')
    ∧ e' ≠ 2.
Proof.
  exact (sessions_share_instance_emitters Demo.w_both Demo.bundled Demo.bundled
           Demo.world0 Demo.world0 _ Demo.world0 _ Demo.world0 _ 0 [] VNull
           (VStr "again") VNull _ _ _ {[ "ping" := Demo.ping ]} [] [PanelClosed] []
           "onSave" 2 eq_refl eq_refl eq_refl eq_refl eq_refl).
Defined.

(** X12. On a descriptor whose event map has no own key __proto__, for
    a declared event whose emitter exists before the instance is
    constructed, the protocol field of the instance names that declared
    emitter, while the session show opens registers under the same key
    the emitter the constructor created for the instance: the two are
    different objects. *)
Theorem protocol_field_names_declared_emitter
    (params : WebviewParams) (ctx : Host) (w0 w w' : World) (data : value)
    (s : Session) (cmds : gmap string command) (evs : gmap string emitter)
    (k : string) (e : emitter) :
  let this := (construct params ctx w0).1 in
  commands params = Some cmds →
  events params = Some evs →
  evs !! "__proto__" = None →
  evs !! k = Some e →
  e < next_emitter w0 →
  show params this data w = (ShowOpened s, w') →
  props (protocol this) !! k = Some (PEvent e)
  ∧ ∃ srv e',
      server s = Some srv
      ∧ ws_protocol srv !! k = Some (HEmitter e')
      ∧ emitters this !! k = Some e'
      ∧ (next_emitter w0 ≤ e')%nat
      ∧ e' ≠ e.
Proof.
  intros this Hc Hev Hproto Hk Hlt Hshow. split.
  - unfold this. rewrite construct_protocol. cbn [props literal].
    rewrite protocol_of_lookup.
    unfold spread. rewrite Hev. cbn. rewrite Hk. reflexivity.
  - assert (Hin : k ∈ dom (emitters this)).
    { unfold this. rewrite construct_emitters_dom. unfold spread. rewrite Hev. cbn.
      apply elem_of_difference. split; [apply elem_of_dom; eauto|].
      intros Heq%elem_of_singleton. subst k. congruence. }
    apply elem_of_dom in Hin as [e' He'].
    assert (Hge : (next_emitter w0 ≤ e')%nat).
    { apply construct_emitters_lookup in He' as (_ & i & _ & ->). lia. }
    eexists. exists e'. split.
    + exact (registered_server params this data w w' s cmds [] Hc Hshow).
    + cbn [ws_protocol]. rewrite live_protocol_lookup, He'.
      split; [reflexivity|]. split; [reflexivity|]. split; [exact Hge|lia].
Qed.

Lemma protocol_field_names_declared_emitter_witness :
  props (protocol (construct Demo.w_both Demo.bundled Demo.world0).1) !! "onSave"
  = Some (PEvent 0)
  ∧ ∃ srv e', server (Demo.opened Demo.w_both VNull) = Some srv
              ∧ ws_protocol srv !! "onSave" = Some (HEmitter e')
              ∧ emitters (construct Demo.w_both Demo.bundled Demo.world0).1 !! "onSave"
                = Some e'
              ∧ (2 ≤ e')%nat
              ∧ e' ≠ 0.
Proof.
  apply (protocol_field_names_declared_emitter Demo.w_both Demo.bundled Demo.world0
           Demo.world0
           (show Demo.w_both (construct Demo.w_both Demo.bundled Demo.world0).1
              VNull Demo.world0).2
           VNull (Demo.opened Demo.w_both VNull) {[ "ping" := Demo.ping ]}
           {[ "onSave" := 0 ]} "onSave" 0).
  - reflexivity.
  - reflexivity.
  - vm_compute. reflexivity.
  - vm_compute. reflexivity.
  - cbn. lia.
  - reflexivity.
Defined.

(** X13. Once a submit that the hook accepts has completed on a pending
    session, its value is the result for good: whatever events follow,
    a later submit, accepted or not, does not replace it. *)
Theorem first_accepted_submit_wins
    (params : WebviewParams) (this : Instance) (data V1 V2 : value) (w w' : World)
    (s : Session) (hk : hook) (t t' : list event) :
  validateSubmit params = Some hk →
  hook_truthy (hk V1) = true →
  show params this data w = (ShowOpened s, w') →
  result (run params s t) = Pending →
  let s1 := run_submit params V1 (run params s t) in
  result s1 = Resolved V1
  ∧ result (run_submit params V2 (run params s1 t')) = Resolved V1.
Proof.
  intros Hk Ht Hshow Hp s1.
  assert (H1 : result s1 = Resolved V1).
  { exact (proj1 (run_submit_truthy params hk V1 _ Hk Ht Hp)). }
  split; [exact H1|].
  apply run_submit_settled, run_settled, H1.
Qed.

Lemma first_accepted_submit_wins_witness :
  result (run_submit Demo.w1_validated (VStr "ok")
            (run Demo.w1_validated
               (run_submit Demo.w1_validated (VStr "ok")
                  (run Demo.w1_validated (Demo.opened Demo.w1_validated VNull) []))
               [PanelClosed]))
  = Resolved (VStr "ok").
Proof.
  exact (proj2 (first_accepted_submit_wins Demo.w1_validated
                  (construct Demo.w1_validated Demo.bundled Demo.world0).1
                  VNull (VStr "ok") (VStr "ok") Demo.world0
                  (show Demo.w1_validated
                     (construct Demo.w1_validated Demo.bundled Demo.world0).1
                     VNull Demo.world0).2
                  (Demo.opened Demo.w1_validated VNull) Demo.is_ok [] [PanelClosed]
                  eq_refl eq_refl eq_refl eq_refl)).
Defined.

(** X14. Constructing an instance creates no panel and allocates
    exactly as many emitters as the descriptor declares events: the
    emitter counter of the world advances by that number.  When the
    event map has no own key __proto__, every emitter allocated in
    between belongs to a key of the instance. *)
Theorem constructor_allocates_interval
    (params : WebviewParams) (ctx : Host) (w : World) :
  let this := (construct params ctx w).1 in
  let w1 := (construct params ctx w).2 in
  next_emitter w1 = next_emitter w + size (spread (events params))
  ∧ panels w1 = panels w
  ∧ (spread (events params) !! "__proto__" = None →
     ∀ e, next_emitter w ≤ e < next_emitter w1 → ∃ k, emitters this !! k = Some e).
Proof.
  intros this w1. split; [apply construct_next|]. split; [apply construct_panels|].
  intros Hproto e [Hlo Hhi]. unfold w1 in Hhi. rewrite construct_next in Hhi.
  destruct (lookup_lt_is_Some_2 (event_keys params) (e - next_emitter w)) as [k Hk].
  { rewrite event_keys_length. lia. }
  exists k. apply construct_emitters_lookup. split.
  - intros ->. apply list_elem_of_lookup_2, event_keys_elem in Hk as [x Hx].
    congruence.
  - exists (e - next_emitter w). split; [exact Hk|lia].
Qed.

Lemma constructor_allocates_interval_witness :
  next_emitter (construct Demo.w_events Demo.bundled Demo.world0).2 = 4
  ∧ ∃ k, emitters (construct Demo.w_events Demo.bundled Demo.world0).1 !! k = Some 3.
Proof.
  destruct (constructor_allocates_interval Demo.w_events Demo.bundled Demo.world0)
    as (H1 & _ & H3).
  split; [exact H1|]. apply H3; [reflexivity|]. vm_compute. split; lia.
Defined.


(** X16. show creates a panel exactly when it opens a session, and
    then exactly one, the panel of that session, put in front of the
    panels of the world; it never allocates an emitter.  Without a
    validateData hook it always opens a session.  With a hook whose
    promise never settles it never settles either and the world is as
    before.  Two calls in a row that open leave two panels. *)
Theorem show_outcomes
    (params : WebviewParams) (this : Instance) (data data' : value) (w : World) :
  let o := (show params this data w).1 in
  let w1 := (show params this data w).2 in
  next_emitter w1 = next_emitter w
  ∧ match o with
    | ShowOpened s =>
        panels w1 = panel s :: panels w
        ∧ panel s = createVueWebview params (context this)
        ∧ result s = Pending
        ∧ panels (show params this data' w1).2
          = match (show params this data' w1).1 with
            | ShowOpened s' => panel s' :: panel s :: panels w
            | _ => panel s :: panels w
            end
    | _ => w1 = w
    end
  ∧ (validateData params = None → ∃ s, o = ShowOpened s)
  ∧ (∀ hk, validateData params = Some hk → hk data = ReturnsPromise Forever →
           o = ShowNeverSettles ∧ w1 = w).
Proof.
  intros o w1. unfold o, w1, show, await_validateData.
  split; [|split; [|split]].
  - destruct (validateData params) as [hk|]; [destruct (hk data) as [v|[v|e|]|e]|];
      reflexivity.
  - destruct (validateData params) as [hk|].
    + destruct (hk data) as [v|[v|e|]|e]; try reflexivity;
        (split; [reflexivity|]; split; [reflexivity|]; split; [reflexivity|]);
        destruct (hk data') as [v'|[v'|e'|]|e']; reflexivity.
    + repeat split.
  - intros ->. eexists. reflexivity.
  - intros hk -> ->. split; reflexivity.
Qed.

Lemma show_outcomes_witness :
  (∃ s, (show Demo.w1 (construct Demo.w1 Demo.bundled Demo.world0).1 VNull Demo.world0).1
        = ShowOpened s)
  ∧ length (panels (show Demo.w1 (construct Demo.w1 Demo.bundled Demo.world0).1 VNull
                      Demo.world0).2) = 1%nat.
Proof.
  destruct (show_outcomes Demo.w1 (construct Demo.w1 Demo.bundled Demo.world0).1
              VNull VNull Demo.world0) as (_ & H2 & H3 & _).
  split; [exact (H3 eq_refl)|].
  destruct (H3 eq_refl) as [s Hs]. rewrite Hs in H2. destruct H2 as (-> & _).
  reflexivity.
Defined.

(** X17. Against a dev server the document does not depend on the
    bundled main URI it is given; without one it does not depend on the
    webviewJs name it is given. *)
Theorem document_ignores_unused_input
    (h : Host) (sc st csp js js' : string) (m m' : Uri) :
  match local_server h with
  | Some _ =>
      resolveWebviewHtml h {| scripts := sc; stylesheets := st; cspSource := csp;
                              html_webviewJs := js; main := m |}
      = resolveWebviewHtml h {| scripts := sc; stylesheets := st; cspSource := csp;
                                html_webviewJs := js; main := m' |}
  | None =>
      resolveWebviewHtml h {| scripts := sc; stylesheets := st; cspSource := csp;
                              html_webviewJs := js; main := m |}
      = resolveWebviewHtml h {| scripts := sc; stylesheets := st; cspSource := csp;
                                html_webviewJs := js'; main := m |}
  end.
Proof.
  unfold resolveWebviewHtml, resolve_params.
  destruct (local_server h); reflexivity.
Qed.
